(** * An entity-component-system runtime: entities, systems and the coordinator

    Shallow embedding of [src/entity.ts], [src/system.ts], [src/ecs.ts] and
    of [fastSplice] from [src/utils.ts].

    Objects live in a store and are named by references (natural numbers);
    JavaScript arrays of objects become lists of references, so that
    [indexOf] and [===] compare identities as the source does.  The store
    holds one coordinator.  The application hooks of a system ([enter],
    [exit], [preUpdate], [update], [postUpdate]) are abstract in the source:
    a call to one of them is recorded in a trace and has no other effect on
    the store.  Component objects live in the store as well: an entity
    maps names to references, as [Entity.components] does, so that a write
    of [updateComponent] reaches every holder of the object.  The
    eligibility predicate [test] is a pure function of the identifier of the
    entity it is given and of its components, names and fields.
    Numbers are integers ([Z]); the clock value is an argument of
    [ECS_update]. *)

From stdpp Require Import gmap strings list.
From Stdlib Require Import ZArith Lia.

Local Open Scope Z_scope.

(** ** Arrays *)

Section Arrays.
Context {A : Type}.

(** A slot of a JavaScript array while [fastSplice] runs: reading past the
    end gives [undefined], here [None]. *)
Definition js_get (array : list (option A)) (i : nat) : option A :=
  match array !! i with
  | Some v => v
  | None => None
  end.

(** The copying loop of [fastSplice]:
    [for (let i = startIndex; i < len; i += 1) array[i] = array[i + removeCount]],
    run for [n] more iterations from index [i]. *)
Fixpoint fastSplice_shift (n i removeCount : nat) (array : list (option A))
  : list (option A) :=
  match n with
  | O => array
  | S n' =>
      fastSplice_shift n' (S i) removeCount
        (<[i := js_get array (i + removeCount)%nat]> array)
  end.

Fixpoint defined (array : list (option A)) : list A :=
  match array with
  | [] => []
  | Some v :: rest => v :: defined rest
  | None :: rest => defined rest
  end.

(** [fastSplice(array, startIndex, removeCount)] of [utils.ts]. *)
Definition fastSplice (array : list A) (startIndex removeCount : nat) : list A :=
  let len := length array in
  if (len <=? startIndex)%nat || (removeCount =? 0)%nat then array
  else
    let removeCount :=
      if (len <? startIndex + removeCount)%nat then (len - startIndex)%nat
      else removeCount in
    let removeLen := (len - removeCount)%nat in
    defined (take removeLen
               (fastSplice_shift (len - startIndex) startIndex removeCount
                  (Some <$> array))).
End Arrays.

(** [array.indexOf(x)] on an array of references; [None] stands for [-1]. *)
Fixpoint indexOf (array : list nat) (x : nat) : option nat :=
  match array with
  | [] => None
  | y :: rest =>
      if (y =? x)%nat then Some O
      else match indexOf rest x with
           | Some i => Some (S i)
           | None => None
           end
  end.

(** Number of slots of an array that hold the reference [x]. *)
Fixpoint occ (x : nat) (array : list nat) : nat :=
  match array with
  | [] => O
  | y :: rest => ((if (y =? x)%nat then 1 else 0) + occ x rest)%nat
  end.

(** ** Iteration *)

Section Iteration.
Context {St A : Type}.

(** [for (const x of arr) body], with the array iterator of JavaScript:
    the iterator keeps an index, and every step reads the array as it is
    then, so a body that shortens the array makes the loop skip elements.
    [fuel] bounds the number of steps; [None] means the bound was hit. *)
Fixpoint for_of (fuel : nat) (arr : St -> list A)
    (body : A -> St -> option St) (i : nat) (st : St) : option St :=
  match fuel with
  | O => None
  | S fuel' =>
      match arr st !! i with
      | None => Some st
      | Some x =>
          match body x st with
          | Some st' => for_of fuel' arr body (S i) st'
          | None => None
          end
      end
  end.

(** The same loop with a body that may [break]: the body returns [true]
    together with its state to leave the loop. *)
Fixpoint for_of_break (fuel : nat) (arr : St -> list A)
    (body : A -> St -> option (bool * St)) (i : nat) (st : St) : option St :=
  match fuel with
  | O => None
  | S fuel' =>
      match arr st !! i with
      | None => Some st
      | Some x =>
          match body x st with
          | Some (true, st') => Some st'
          | Some (false, st') => for_of_break fuel' arr body (S i) st'
          | None => None
          end
      end
  end.

End Iteration.

(** ** Data model *)

Definition EntRef := nat.
Definition SysRef := nat.

(** A component: a record of named fields. *)
Inductive Value :=
  | VNum (n : Z)
  | VStr (s : string)
  | VBool (b : bool).

Definition Component := gmap string Value.

(** A component object is shared by reference: [addComponent] stores the
    reference it is given, and [updateComponent] writes through it. *)
Definition CompRef := nat.

Module Entity.
Record t := mk {
  id : Z;
  (** whether [this.ecs] is set *)
  ecs : bool;
  systems : list SysRef;
  systemsDirty : bool;
  components : gmap string CompRef
}.
End Entity.

Module System.
Record t := mk {
  frequency : Z;
  entities : list EntRef;
  (** the overridable method [test(entity)] *)
  test : Z -> gmap string Component -> bool
}.
End System.

Module ECS.
Record t := mk {
  entities : list EntRef;
  entitiesSystemsDirty : list EntRef;
  systems : list SysRef;
  updateCounter : Z;
  lastUpdate : Z
}.
End ECS.

(** Calls of the abstract hooks of a system. *)
Inductive Event :=
  | Enter (s : SysRef) (e : EntRef)
  | Exit (s : SysRef) (e : EntRef)
  | PreUpdate (s : SysRef)
  | Update (s : SysRef) (e : EntRef) (elapsed : Z)
  | PostUpdate (s : SysRef).

Record World := mkWorld {
  ent : EntRef -> Entity.t;
  sys : SysRef -> System.t;
  comp : CompRef -> Component;
  ecs : ECS.t;
  trace : list Event
}.

(** *** Field assignment *)

Definition upd_ent (e : EntRef) (f : Entity.t -> Entity.t) (w : World) : World :=
  mkWorld (fun e' => if (e' =? e)%nat then f (ent w e) else ent w e')
          (sys w) (comp w) (ecs w) (trace w).

Definition upd_sys (s : SysRef) (f : System.t -> System.t) (w : World) : World :=
  mkWorld (ent w)
          (fun s' => if (s' =? s)%nat then f (sys w s) else sys w s')
          (comp w) (ecs w) (trace w).

Definition upd_comp (c : CompRef) (f : Component -> Component) (w : World) : World :=
  mkWorld (ent w) (sys w)
          (fun c' => if (c' =? c)%nat then f (comp w c) else comp w c')
          (ecs w) (trace w).

Definition upd_ecs (f : ECS.t -> ECS.t) (w : World) : World :=
  mkWorld (ent w) (sys w) (comp w) (f (ecs w)) (trace w).

Definition call (ev : Event) (w : World) : World :=
  mkWorld (ent w) (sys w) (comp w) (ecs w) (trace w ++ [ev]).

Definition set_ecs (b : bool) (o : Entity.t) : Entity.t :=
  Entity.mk (Entity.id o) b (Entity.systems o) (Entity.systemsDirty o)
    (Entity.components o).

Definition set_systems (l : list SysRef) (o : Entity.t) : Entity.t :=
  Entity.mk (Entity.id o) (Entity.ecs o) l (Entity.systemsDirty o)
    (Entity.components o).

Definition set_systemsDirty (b : bool) (o : Entity.t) : Entity.t :=
  Entity.mk (Entity.id o) (Entity.ecs o) (Entity.systems o) b
    (Entity.components o).

Definition set_components (m : gmap string CompRef) (o : Entity.t) : Entity.t :=
  Entity.mk (Entity.id o) (Entity.ecs o) (Entity.systems o)
    (Entity.systemsDirty o) m.

Definition set_members (l : list EntRef) (o : System.t) : System.t :=
  System.mk (System.frequency o) l (System.test o).

Definition set_population (l : list EntRef) (o : ECS.t) : ECS.t :=
  ECS.mk l (ECS.entitiesSystemsDirty o) (ECS.systems o) (ECS.updateCounter o)
    (ECS.lastUpdate o).

Definition set_dirtyQueue (l : list EntRef) (o : ECS.t) : ECS.t :=
  ECS.mk (ECS.entities o) l (ECS.systems o) (ECS.updateCounter o)
    (ECS.lastUpdate o).

Definition set_systemList (l : list SysRef) (o : ECS.t) : ECS.t :=
  ECS.mk (ECS.entities o) (ECS.entitiesSystemsDirty o) l (ECS.updateCounter o)
    (ECS.lastUpdate o).

Definition set_clock (counter last : Z) (o : ECS.t) : ECS.t :=
  ECS.mk (ECS.entities o) (ECS.entitiesSystemsDirty o) (ECS.systems o)
    counter last.

(** ** Entity ([entity.ts]) *)

(** [setSystemsDirty()] *)
Definition Entity_setSystemsDirty (e : EntRef) (w : World) : World :=
  if negb (Entity.systemsDirty (ent w e)) && Entity.ecs (ent w e) then
    let w1 := upd_ent e (set_systemsDirty true) w in
    upd_ecs (fun c => set_dirtyQueue (ECS.entitiesSystemsDirty c ++ [e]) c) w1
  else w.

(** [addToECS(ecs)] *)
Definition Entity_addToECS (e : EntRef) (w : World) : World :=
  Entity_setSystemsDirty e (upd_ent e (set_ecs true) w).

(** [addSystem(system)] *)
Definition Entity_addSystem (e : EntRef) (s : SysRef) (w : World) : World :=
  upd_ent e (fun o => set_systems (Entity.systems o ++ [s]) o) w.

(** [removeSystem(system)] *)
Definition Entity_removeSystem (e : EntRef) (s : SysRef) (w : World) : World :=
  match indexOf (Entity.systems (ent w e)) s with
  | Some index =>
      upd_ent e (fun o => set_systems (fastSplice (Entity.systems o) index 1) o) w
  | None => w
  end.

(** [addComponent(name, component)] *)
Definition Entity_addComponent (e : EntRef) (name : string) (component : CompRef)
    (w : World) : World :=
  Entity_setSystemsDirty e
    (upd_ent e (fun o => set_components (<[name := component]> (Entity.components o)) o) w).

(** [removeComponent(name)] *)
Definition Entity_removeComponent (e : EntRef) (name : string) (w : World) : World :=
  match Entity.components (ent w e) !! name with
  | None => w
  | Some _ =>
      Entity_setSystemsDirty e
        (upd_ent e (fun o => set_components (delete name (Entity.components o)) o) w)
  end.

(** An enumerable property of the [data] object given to [updateComponent]:
    [for ... in] also visits inherited ones.  The values are data fields
    ([ComProps] maps function-typed properties to [never]). *)
Record DataProp := mkProp {
  prop_key : string;
  prop_value : Value;
  prop_own : bool
}.

(** Outcome of a call that may throw. *)
Inductive Outcome :=
  | Returns (w : World)
  | Throws_TypeError (w : World).

(** What the expression [data.hasOwnProperty] finds.  An enumerable
    property of the object named [hasOwnProperty], own or inherited, hides
    the method of [Object.prototype]; its value is a data field, and
    calling it throws.  Otherwise the method answers, for a key that
    [for ... in] gave, whether the property is an own one. *)
Definition hasOwnProperty_hidden {P : Type} (key : P -> string) (object : list P)
  : bool :=
  existsb (fun p => String.eqb (key p) "hasOwnProperty") object.

(** [updateComponent(name, data)]: the loop over the keys of [data].
    [component] is the value that [this.components.get(name)] gave before
    the loop, and [hidden] tells what [data.hasOwnProperty] finds; a write
    through the reference changes the component object itself, for every
    entity and name that hold it, and a write through [undefined] throws. *)
Fixpoint Entity_updateComponent_loop (component : option CompRef)
    (hidden : bool) (data : list DataProp) (w : World) : Outcome :=
  match data with
  | [] => Returns w
  | p :: rest =>
      if hidden then Throws_TypeError w
      else if negb (prop_own p) then
        Entity_updateComponent_loop component hidden rest w
      else
        match component with
        | None => Throws_TypeError w
        | Some c =>
            Entity_updateComponent_loop component hidden rest
              (upd_comp c (fun o => <[prop_key p := prop_value p]> o) w)
        end
  end.

Definition Entity_updateComponent (e : EntRef) (name : string)
    (data : list DataProp) (w : World) : Outcome :=
  let component := Entity.components (ent w e) !! name in
  Entity_updateComponent_loop component (hasOwnProperty_hidden prop_key data) data w.

(** ** System ([system.ts]) *)

(** The components of an entity as a reader finds them: each name with
    the fields of the object stored under it. *)
Definition components_of (w : World) (e : EntRef) : gmap string Component :=
  comp w <$> Entity.components (ent w e).

(** [system.test(entity)] *)
Definition System_test (s : SysRef) (e : EntRef) (w : World) : bool :=
  System.test (sys w s) (Entity.id (ent w e)) (components_of w e).

(** [addEntity(entity)] *)
Definition System_addEntity (s : SysRef) (e : EntRef) (w : World) : World :=
  let w1 := Entity_addSystem e s w in
  let w2 := upd_sys s (fun o => set_members (System.entities o ++ [e]) o) w1 in
  call (Enter s e) w2.

(** [removeEntity(entity)] *)
Definition System_removeEntity (s : SysRef) (e : EntRef) (w : World) : World :=
  match indexOf (System.entities (sys w s)) e with
  | Some index =>
      let w1 := Entity_removeSystem e s w in
      let w2 := upd_sys s (fun o => set_members (fastSplice (System.entities o) index 1) o) w1 in
      call (Exit s e) w2
  | None => w
  end.

(** [updateAll(elapsed)] *)
Definition System_updateAll (s : SysRef) (elapsed : Z) (w : World) : option World :=
  let w1 := call (PreUpdate s) w in
  match for_of (S (length (System.entities (sys w1 s))))
          (fun w => System.entities (sys w s))
          (fun entity w => Some (call (Update s entity elapsed) w)) O w1 with
  | Some w2 => Some (call (PostUpdate s) w2)
  | None => None
  end.

(** [dispose()] of a system *)
Definition System_dispose (s : SysRef) (w : World) : option World :=
  for_of (S (length (System.entities (sys w s))))
    (fun w => System.entities (sys w s))
    (fun entity w => Some (call (Exit s entity) (Entity_removeSystem entity s w)))
    O w.

(** [dispose()] of an entity *)
Definition Entity_dispose (e : EntRef) (w : World) : option World :=
  for_of (S (length (Entity.systems (ent w e))))
    (fun w => Entity.systems (ent w e))
    (fun system w => Some (System_removeEntity system e w))
    O w.

(** ** Coordinator ([ecs.ts]) *)

(** First position of [l] whose entity has identifier [entityId], counted
    from [i]: the search of the loops of [getEntityById] and
    [removeEntityById], which change nothing before they find it. *)
Fixpoint find_by_id (w : World) (l : list EntRef) (entityId : Z) (i : nat)
  : option (nat * EntRef) :=
  match l with
  | [] => None
  | entity :: rest =>
      if Entity.id (ent w entity) =? entityId then Some (i, entity)
      else find_by_id w rest entityId (S i)
  end.

(** [getEntityById(id)]; [None] is [undefined]. *)
Definition ECS_getEntityById (entityId : Z) (w : World) : option EntRef :=
  match find_by_id w (ECS.entities (ecs w)) entityId O with
  | Some (_, entity) => Some entity
  | None => None
  end.

(** [addEntity(entity)] *)
Definition ECS_addEntity (entity : EntRef) (w : World) : World :=
  Entity_addToECS entity
    (upd_ecs (fun c => set_population (ECS.entities c ++ [entity]) c) w).

(** [removeEntityIfDirty(entity)] *)
Definition ECS_removeEntityIfDirty (entity : EntRef) (w : World) : World :=
  match indexOf (ECS.entitiesSystemsDirty (ecs w)) entity with
  | Some index =>
      upd_ecs (fun c => set_population (fastSplice (ECS.entities c) index 1) c) w
  | None => w
  end.

(** [removeEntity(entity)]; the first component of the result is the value
    returned to the caller, [None] for [undefined]. *)
Definition ECS_removeEntity (entity : EntRef) (w : World)
  : option (option EntRef * World) :=
  match indexOf (ECS.entities (ecs w)) entity with
  | Some index =>
      let entityRemoved := default entity (ECS.entities (ecs w) !! index) in
      match Entity_dispose entity w with
      | Some w1 =>
          let w2 := ECS_removeEntityIfDirty entityRemoved w1 in
          let w3 :=
            upd_ecs (fun c => set_population (fastSplice (ECS.entities c) index 1) c) w2 in
          Some (Some entityRemoved, w3)
      | None => None
      end
  | None => Some (None, w)
  end.

(** [removeEntityById(entityId)] *)
Definition ECS_removeEntityById (entityId : Z) (w : World)
  : option (option EntRef * World) :=
  match find_by_id w (ECS.entities (ecs w)) entityId O with
  | Some (i, entity) =>
      match Entity_dispose entity w with
      | Some w1 =>
          let w2 := ECS_removeEntityIfDirty entity w1 in
          let w3 :=
            upd_ecs (fun c => set_population (fastSplice (ECS.entities c) i 1) c) w2 in
          Some (Some entity, w3)
      | None => None
      end
  | None => Some (None, w)
  end.

(** [addSystem(system)] *)
Definition ECS_addSystem (system : SysRef) (w : World) : option World :=
  let w1 := upd_ecs (fun c => set_systemList (ECS.systems c ++ [system]) c) w in
  for_of (S (length (ECS.entities (ecs w1))))
    (fun w => ECS.entities (ecs w))
    (fun entity w =>
       if System_test system entity w then Some (System_addEntity system entity w)
       else Some w)
    O w1.

(** [removeSystem(system)] *)
Definition ECS_removeSystem (system : SysRef) (w : World) : option World :=
  match indexOf (ECS.systems (ecs w)) system with
  | Some index =>
      System_dispose system
        (upd_ecs (fun c => set_systemList (fastSplice (ECS.systems c) index 1) c) w)
  | None => Some w
  end.

Definition is_minus_one (index : option nat) : bool :=
  match index with
  | None => true
  | Some _ => false
  end.

(** Body of the inner loop of [cleanDirtyEntities]. *)
Definition reconcile (entity : EntRef) (system : SysRef) (w : World) : World :=
  let index := indexOf (Entity.systems (ent w entity)) system in
  let entity_test := System_test system entity w in
  if is_minus_one index && entity_test then System_addEntity system entity w
  else if negb (is_minus_one index) && negb entity_test then
    System_removeEntity system entity w
  else w.

(** [cleanDirtyEntities()] *)
Definition ECS_cleanDirtyEntities (w : World) : option World :=
  match
    for_of (S (length (ECS.entitiesSystemsDirty (ecs w))))
      (fun w => ECS.entitiesSystemsDirty (ecs w))
      (fun entity w =>
         match
           for_of (S (length (ECS.systems (ecs w))))
             (fun w => ECS.systems (ecs w))
             (fun system w => Some (reconcile entity system w))
             O w
         with
         | Some w' => Some (upd_ent entity (set_systemsDirty false) w')
         | None => None
         end)
      O w
  with
  | Some w' => Some (upd_ecs (set_dirtyQueue []) w')
  | None => None
  end.

(** [a % b] on integers; [None] is [NaN], the result for [b = 0]. *)
Definition js_rem (a b : Z) : option Z :=
  if b =? 0 then None else Some (Z.rem a b).

(** [r > 0]; a comparison with [NaN] is false. *)
Definition js_gt0 (r : option Z) : bool :=
  match r with
  | Some v => 0 <? v
  | None => false
  end.

(** The frequency gate of [update]: [this.updateCounter % system.frequency > 0]. *)
Definition gate_miss (system : SysRef) (w : World) : bool :=
  js_gt0 (js_rem (ECS.updateCounter (ecs w)) (System.frequency (sys w system))).

(** Body of the loop of [update]; [true] is [break]. *)
Definition update_body (elapsed : Z) (system : SysRef) (w : World)
  : option (bool * World) :=
  if gate_miss system w then Some (true, w)
  else
    match
      (if (0 <? length (ECS.entitiesSystemsDirty (ecs w)))%nat
       then ECS_cleanDirtyEntities w else Some w)
    with
    | Some w1 =>
        match System_updateAll system elapsed w1 with
        | Some w2 => Some (false, w2)
        | None => None
        end
    | None => None
    end.

(** [update()]; [now] is the value of [performance.now()]. *)
Definition ECS_update (now : Z) (w : World) : option World :=
  let elapsed := now - ECS.lastUpdate (ecs w) in
  match
    for_of_break (S (length (ECS.systems (ecs w))))
      (fun w => ECS.systems (ecs w)) (update_body elapsed) O w
  with
  | Some w' =>
      Some (upd_ecs (fun c => set_clock (ECS.updateCounter c + 1) now c) w')
  | None => None
  end.

(** ** Observations and invariants used in the statements *)

(** Number of slots of the member list of [s] that hold [e]. *)
Definition in_system (w : World) (s : SysRef) (e : EntRef) : nat :=
  occ e (System.entities (sys w s)).

(** Number of slots of the membership cache of [e] that hold [s]. *)
Definition in_cache (w : World) (e : EntRef) (s : SysRef) : nat :=
  occ s (Entity.systems (ent w e)).

(** Number of slots of the dirty queue that hold [e]. *)
Definition queued (w : World) (e : EntRef) : nat :=
  occ e (ECS.entitiesSystemsDirty (ecs w)).

(** The member lists and the membership caches agree, slot for slot. *)
Definition agreement (w : World) : Prop :=
  forall s e, in_system w s e = in_cache w e s.

(** No member list holds an entity twice. *)
Definition no_duplicates (w : World) : Prop :=
  forall s e, (in_system w s e <= 1)%nat.

(** The systems whose [updateAll] was entered, oldest first. *)
Fixpoint batches (tr : list Event) : list SysRef :=
  match tr with
  | [] => []
  | PreUpdate s :: rest => s :: batches rest
  | _ :: rest => batches rest
  end.

(** The hooks [exit] called on behalf of entity [e], oldest first. *)
Fixpoint exits_of (e : EntRef) (tr : list Event) : list SysRef :=
  match tr with
  | [] => []
  | Exit s e' :: rest =>
      if (e' =? e)%nat then s :: exits_of e rest else exits_of e rest
  | _ :: rest => exits_of e rest
  end.

(** The system is due: its frequency divides the tick counter. *)
Definition due (w : World) (s : SysRef) : Prop :=
  (System.frequency (sys w s) | ECS.updateCounter (ecs w)).

(** The world an outcome leaves behind. *)
Definition outcome_world (o : Outcome) : World :=
  match o with
  | Returns w => w
  | Throws_TypeError w => w
  end.

(** Whether [data] has an own enumerable property. *)
Definition has_own (data : list DataProp) : bool := existsb prop_own data.

(** *** Sequences of dirty-marking calls *)

Inductive DirtyCall :=
  | Call_setSystemsDirty (e : EntRef)
  | Call_addComponent (e : EntRef) (name : string) (component : CompRef)
  | Call_removeComponent (e : EntRef) (name : string).

Definition run_call (c : DirtyCall) (w : World) : World :=
  match c with
  | Call_setSystemsDirty e => Entity_setSystemsDirty e w
  | Call_addComponent e name component => Entity_addComponent e name component w
  | Call_removeComponent e name => Entity_removeComponent e name w
  end.

Definition run_calls (cs : list DirtyCall) (w : World) : World :=
  fold_left (fun w c => run_call c w) cs w.

(** *** Reconciliation over lists the loop bodies cannot reach *)

Definition clean_entity (systems : list SysRef) (entity : EntRef) (w : World)
  : World :=
  upd_ent entity (set_systemsDirty false)
    (fold_left (fun w system => reconcile entity system w) systems w).

Definition clean_all (queue : list EntRef) (systems : list SysRef) (w : World)
  : World :=
  fold_left (fun w entity => clean_entity systems entity w) queue w.

(** *** Relations between two stores *)

(** [delta s s' e e'] is 1 when the pair [(s', e')] is the pair [(s, e)]. *)
Definition delta (s s' : SysRef) (e e' : EntRef) : nat :=
  if (s' =? s)%nat && (e' =? e)%nat then 1%nat else 0%nat.

(** What membership bookkeeping and reconciliation never touch: the
    population, the systems list and the clock of the coordinator, the
    identity, attachment and components of the entities, the frequency and
    the predicate of the systems, the component objects. *)
Definition same_static (w w' : World) : Prop :=
  ECS.entities (ecs w') = ECS.entities (ecs w)
  /\ ECS.systems (ecs w') = ECS.systems (ecs w)
  /\ ECS.updateCounter (ecs w') = ECS.updateCounter (ecs w)
  /\ ECS.lastUpdate (ecs w') = ECS.lastUpdate (ecs w)
  /\ (forall e, Entity.id (ent w' e) = Entity.id (ent w e)
                /\ Entity.ecs (ent w' e) = Entity.ecs (ent w e)
                /\ Entity.components (ent w' e) = Entity.components (ent w e))
  /\ (forall s, System.frequency (sys w' s) = System.frequency (sys w s)
                /\ System.test (sys w' s) = System.test (sys w s))
  /\ comp w' = comp w.

(** Progress of a reconciliation started in [w0]: the pairs in [D] are
    members exactly when the predicate holds, the others are as in [w0]. *)
Definition reconciled (w0 w : World) (D : EntRef -> SysRef -> Prop) : Prop :=
  agreement w /\ no_duplicates w /\ same_static w0 w
  /\ (forall e s, (D e s -> in_system w s e = if System_test s e w0 then 1%nat else 0%nat)
                  /\ (~ D e s -> in_system w s e = in_system w0 s e)).

(** What a run of dirty-marking calls does to entity [e]: the queue only
    grows, each new slot for [e] uses up the clean state of its flag, and a
    detached entity is left alone. *)
Definition marks (e : EntRef) (w w' : World) : Prop :=
  Entity.ecs (ent w' e) = Entity.ecs (ent w e)
  /\ (Entity.systemsDirty (ent w e) = true -> Entity.systemsDirty (ent w' e) = true)
  /\ (Entity.ecs (ent w e) = false ->
        Entity.systemsDirty (ent w' e) = Entity.systemsDirty (ent w e))
  /\ exists added,
        ECS.entitiesSystemsDirty (ecs w') = ECS.entitiesSystemsDirty (ecs w) ++ added
        /\ (occ e added <= 1)%nat
        /\ (Entity.systemsDirty (ent w e) = true -> occ e added = O)
        /\ (Entity.ecs (ent w e) = false -> occ e added = O)
        /\ (occ e added = 1%nat -> Entity.systemsDirty (ent w' e) = true).

(** ** A concrete store *)

Definition accept_all : Z -> gmap string Component -> bool := fun _ _ => true.

(** Every object as its constructor leaves it, with entity identifiers taken
    from the references, systems of frequency 1 that accept every entity,
    and an empty coordinator. *)
Definition fresh_world : World :=
  mkWorld (fun e => Entity.mk (Z.of_nat e) false [] false ∅)
          (fun _ => System.mk 1 [] accept_all)
          (fun _ => ∅)
          (ECS.mk [] [] [] 0 0)
          [].

Definition position_a : CompRef := 0%nat.
Definition velocity_a : CompRef := 1%nat.
Definition ent_a : EntRef := 0%nat.
Definition ent_b : EntRef := 1%nat.
Definition sys_a : SysRef := 0%nat.
Definition sys_b : SysRef := 1%nat.

(** [ecs.addEntity(a); ecs.addEntity(b)] *)
Definition two_entities : World :=
  ECS_addEntity ent_b (ECS_addEntity ent_a fresh_world).

(** [ecs.addEntity(a); ecs.addSystem(A); ecs.addSystem(B)] *)
Definition two_systems : option World :=
  match ECS_addSystem sys_a (ECS_addEntity ent_a fresh_world) with
  | Some w => ECS_addSystem sys_b w
  | None => None
  end.

Definition two_systems_world : World := default fresh_world two_systems.

(** ** The calls an application can make *)

Inductive ApiCall :=
  | Api_Entity_setSystemsDirty (e : EntRef)
  | Api_Entity_addComponent (e : EntRef) (name : string) (component : CompRef)
  | Api_Entity_removeComponent (e : EntRef) (name : string)
  | Api_Entity_updateComponent (e : EntRef) (name : string) (data : list DataProp)
  | Api_Entity_dispose (e : EntRef)
  | Api_System_addEntity (s : SysRef) (e : EntRef)
  | Api_System_removeEntity (s : SysRef) (e : EntRef)
  | Api_System_dispose (s : SysRef)
  | Api_ECS_addEntity (e : EntRef)
  | Api_ECS_removeEntity (e : EntRef)
  | Api_ECS_removeEntityById (entityId : Z)
  | Api_ECS_addSystem (s : SysRef)
  | Api_ECS_removeSystem (s : SysRef)
  | Api_ECS_cleanDirtyEntities
  | Api_ECS_update (now : Z).

(** The store a call leaves behind; a value returned to the caller is
    dropped, and so is the fact that the call threw. *)
Definition exec (c : ApiCall) (w : World) : option World :=
  match c with
  | Api_Entity_setSystemsDirty e => Some (Entity_setSystemsDirty e w)
  | Api_Entity_addComponent e name component =>
      Some (Entity_addComponent e name component w)
  | Api_Entity_removeComponent e name => Some (Entity_removeComponent e name w)
  | Api_Entity_updateComponent e name data =>
      Some (outcome_world (Entity_updateComponent e name data w))
  | Api_Entity_dispose e => Entity_dispose e w
  | Api_System_addEntity s e => Some (System_addEntity s e w)
  | Api_System_removeEntity s e => Some (System_removeEntity s e w)
  | Api_System_dispose s => System_dispose s w
  | Api_ECS_addEntity e => Some (ECS_addEntity e w)
  | Api_ECS_removeEntity e => snd <$> ECS_removeEntity e w
  | Api_ECS_removeEntityById entityId => snd <$> ECS_removeEntityById entityId w
  | Api_ECS_addSystem s => ECS_addSystem s w
  | Api_ECS_removeSystem s => ECS_removeSystem s w
  | Api_ECS_cleanDirtyEntities => ECS_cleanDirtyEntities w
  | Api_ECS_update now => ECS_update now w
  end.

(** The calls that run [System.dispose]. *)
Definition disposes_system (c : ApiCall) : bool :=
  match c with
  | Api_System_dispose _ | Api_ECS_removeSystem _ => true
  | _ => false
  end.

(** [ecs.addSystem(A); ecs.addEntity(a)]: the entity waits in the dirty
    queue and belongs to no system yet. *)
Definition entity_after_system : World :=
  ECS_addEntity ent_a (default fresh_world (ECS_addSystem sys_a fresh_world)).

(** A coordinator at tick 2 whose systems list holds [B], of frequency 3,
    before [A], of frequency 2. *)
Definition gated_world : World :=
  mkWorld (ent fresh_world)
          (fun s => System.mk (Z.of_nat s + 2) [] accept_all)
          (comp fresh_world)
          (ECS.mk [] [] [sys_b; sys_a] 2 0)
          [].

(** ** Further operations and observations *)


(** [w'] is [w] after reconciliation: the queue is empty, the entities that
    were queued are clean and are members of each active system exactly
    when its predicate holds, every other membership is as in [w], and the
    member lists and the caches agree and hold no duplicates. *)
Definition reconciliation_of (w w' : World) : Prop :=
  ECS.entitiesSystemsDirty (ecs w') = []
  /\ (forall e, e ∈ ECS.entitiesSystemsDirty (ecs w) ->
        Entity.systemsDirty (ent w' e) = false)
  /\ (forall e s, e ∈ ECS.entitiesSystemsDirty (ecs w) -> s ∈ ECS.systems (ecs w) ->
        in_system w' s e = (if System_test s e w then 1 else 0)%nat
        /\ in_cache w' e s = (if System_test s e w then 1 else 0)%nat)
  /\ (forall e s, ~ (e ∈ ECS.entitiesSystemsDirty (ecs w) /\ s ∈ ECS.systems (ecs w)) ->
        in_system w' s e = in_system w s e
        /\ in_cache w' e s = in_cache w e s)
  /\ agreement w' /\ no_duplicates w'.

(** The systems [Entity.dispose] reaches when it runs over a cache without
    repetitions: each removal shortens the cache under the iterator, so
    the system after a removed one is stepped over. *)
Fixpoint dispose_visits (cache : list SysRef) : list SysRef :=
  match cache with
  | [] => []
  | s :: [] => [s]
  | s :: _ :: rest => s :: dispose_visits rest
  end.

(** The systems it steps over. *)
Fixpoint dispose_skips (cache : list SysRef) : list SysRef :=
  match cache with
  | [] => []
  | _ :: [] => []
  | _ :: t :: rest => t :: dispose_skips rest
  end.

(** The dirty queue holds no entity twice and holds exactly the entities
    whose dirty flag is set. *)
Definition queue_coherent (w : World) : Prop :=
  NoDup (ECS.entitiesSystemsDirty (ecs w))
  /\ forall e, Entity.systemsDirty (ent w e) = true
               <-> e ∈ ECS.entitiesSystemsDirty (ecs w).

(** The calls of the hook [update], oldest first: system, entity and the
    elapsed time it was given. *)
Fixpoint updates (tr : list Event) : list (SysRef * EntRef * Z) :=
  match tr with
  | [] => []
  | Update s e elapsed :: rest => (s, e, elapsed) :: updates rest
  | _ :: rest => updates rest
  end.







(** Calls of [enter] minus calls of [exit] of system [s] for entity [e]. *)
Fixpoint hooks_net (s : SysRef) (e : EntRef) (tr : list Event) : Z :=
  match tr with
  | [] => 0
  | Enter s' e' :: rest =>
      (if (s' =? s)%nat && (e' =? e)%nat then 1 else 0) + hooks_net s e rest
  | Exit s' e' :: rest =>
      hooks_net s e rest - (if (s' =? s)%nat && (e' =? e)%nat then 1 else 0)
  | _ :: rest => hooks_net s e rest
  end.

(** Slots of the member list of [s] that hold [e], minus the net number of
    [enter] calls for the pair. *)
Definition hook_balance (w : World) (s : SysRef) (e : EntRef) : Z :=
  Z.of_nat (in_system w s e) - hooks_net s e (trace w).

(** [ecs.addSystem(A); ecs.addEntity(a); a.addComponent("position", {});
    ecs.update()]: the entity is attached, clean and a member of [A]. *)
Definition positioned_world : World :=
  default fresh_world
    (ECS_update 16 (Entity_addComponent ent_a "position" position_a entity_after_system)).


(** [ecs.addSystem(A)] on the fresh store. *)
Definition system_only_world : World :=
  default fresh_world (ECS_addSystem sys_a fresh_world).

(** A program of calls; [None] when a loop of one of them hit its bound. *)
Fixpoint run_api (cs : list ApiCall) (w : World) : option World :=
  match cs with
  | [] => Some w
  | c :: rest =>
      match exec c w with
      | Some w' => run_api rest w'
      | None => None
      end
  end.

(** A predicate that asks for a component of the given name. *)
Definition requires (name : string) : Z -> gmap string Component -> bool :=
  fun _ components =>
    match components !! name with
    | Some _ => true
    | None => false
    end.

(** The fresh store with systems that ask for a component [position]. *)
Definition selective_world : World :=
  mkWorld (ent fresh_world)
          (fun _ => System.mk 1 [] (requires "position"))
          (comp fresh_world)
          (ECS.mk [] [] [] 0 0)
          [].

(** [a.addComponent("position", p); ecs.addEntity(a); ecs.addSystem(A);
    ecs.update(); ecs.removeSystem(A); ecs.addSystem(A);
    a.removeComponent("position")]: the member list that [removeSystem] left
    behind was back-filled once more, and the entity waits in the queue. *)
Definition readded_system : list ApiCall :=
  [ Api_Entity_addComponent ent_a "position" position_a;
    Api_ECS_addEntity ent_a;
    Api_ECS_addSystem sys_a;
    Api_ECS_update 16;
    Api_ECS_removeSystem sys_a;
    Api_ECS_addSystem sys_a;
    Api_Entity_removeComponent ent_a "position" ].

Definition readded_system_world : World :=
  default selective_world (run_api readded_system selective_world).

(** [ecs.addSystem(A); ecs.addEntity(a); A.addEntity(a); A.addEntity(a)]:
    the application entered the entity twice, and the entity waits in the
    queue without the component the system asks for. *)
Definition entered_twice : list ApiCall :=
  [ Api_ECS_addSystem sys_a;
    Api_ECS_addEntity ent_a;
    Api_System_addEntity sys_a ent_a;
    Api_System_addEntity sys_a ent_a ].

Definition entered_twice_world : World :=
  default selective_world (run_api entered_twice selective_world).

(** * Properties *)

(** ** Arrays *)

Section ArrayFacts.
Context {A : Type}.
Implicit Types (l : list A) (array : list (option A)).

Lemma fastSplice_shift_length n i rc array :
  length (fastSplice_shift n i rc array) = length array.
Proof.
  revert i array. induction n as [|n IH]; intros i array; simpl; [done|].
  rewrite IH. apply length_insert.
Qed.

Lemma fastSplice_shift_lookup n i rc array j :
  (0 < rc)%nat -> (i + n <= length array)%nat ->
  fastSplice_shift n i rc array !! j =
    if decide (i <= j < i + n)%nat then Some (js_get array (j + rc)) else array !! j.
Proof.
  intros Hrc. revert i array. induction n as [|n IH]; intros i array Hlen; simpl.
  - case_decide; [lia|done].
  - rewrite IH by (rewrite length_insert; lia).
    destruct (decide (j = i)) as [->|Hne].
    + rewrite decide_False by lia. rewrite decide_True by lia.
      apply list_lookup_insert_eq. lia.
    + rewrite list_lookup_insert_ne by done.
      case_decide; case_decide; try lia; try done.
      f_equal. unfold js_get. rewrite list_lookup_insert_ne by lia. done.
Qed.

Lemma defined_fmap_Some l : defined (Some <$> l) = l.
Proof. induction l as [|x l IH]; simpl; [done|]. f_equal. exact IH. Qed.

Lemma fastSplice_take_drop l i rc :
  (i < length l)%nat -> (0 < rc)%nat ->
  fastSplice l i rc = take i l ++ drop (i + rc) l.
Proof.
  intros Hi Hrc. unfold fastSplice.
  destruct (Nat.leb_spec (length l) i); [lia|].
  destruct (Nat.eqb_spec rc 0); [lia|]. simpl.
  set (rc' := if (length l <? i + rc)%nat then (length l - i)%nat else rc).
  assert (Hrc' : (0 < rc' /\ i + rc' <= length l
                 /\ drop (i + rc') l = drop (i + rc) l)%nat).
  { subst rc'. destruct (Nat.ltb_spec (length l) (i + rc)).
    - split; [lia|]. split; [lia|].
      rewrite !drop_ge; [done|lia|lia].
    - split; [lia|]. split; [lia|done]. }
  destruct Hrc' as (Hpos & Hle & Hdrop). rewrite <- Hdrop.
  rewrite <- (defined_fmap_Some (take i l ++ drop (i + rc') l)). f_equal.
  apply list_eq. intros j.
  rewrite lookup_take.
  case_decide as Hj.
  - rewrite fastSplice_shift_lookup; [|done|rewrite length_fmap; lia].
    rewrite list_lookup_fmap.
    destruct (decide (j < i)%nat) as [Hji|Hji].
    + rewrite decide_False by lia.
      rewrite list_lookup_fmap, lookup_app_l by (rewrite length_take; lia).
      by rewrite lookup_take_lt by done.
    + rewrite decide_True by lia.
      rewrite list_lookup_fmap, lookup_app_r by (rewrite length_take; lia).
      rewrite length_take, lookup_drop.
      replace (i + rc' + (j - i `min` length l))%nat with (j + rc')%nat by lia.
      unfold js_get. rewrite list_lookup_fmap.
      destruct (l !! (j + rc')%nat) eqn:E; simpl; [done|].
      apply lookup_ge_None in E. lia.
  - symmetry. apply lookup_ge_None. rewrite length_fmap, length_app, length_take, length_drop. lia.
Qed.

Lemma fastSplice_one l i : fastSplice l i 1 = delete i l.
Proof.
  destruct (decide (i < length l)%nat) as [Hi|Hi].
  - rewrite fastSplice_take_drop by lia. rewrite delete_take_drop.
    by replace (i + 1)%nat with (S i) by lia.
  - unfold fastSplice. destruct (Nat.leb_spec (length l) i); [|lia]. simpl.
    symmetry. revert i Hi H. induction l as [|x l IH]; intros [|i] ? ?; simpl in *; try done; try lia.
    f_equal. apply IH; lia.
Qed.
End ArrayFacts.

Lemma indexOf_Some array x i : indexOf array x = Some i -> array !! i = Some x.
Proof.
  revert i. induction array as [|y rest IH]; intros i; simpl; [done|].
  destruct (Nat.eqb_spec y x) as [->|Hne].
  - by intros [= <-].
  - destruct (indexOf rest x) as [k|]; [|done]. intros [= <-]. by apply IH.
Qed.

Lemma indexOf_None array x : indexOf array x = None <-> occ x array = O.
Proof.
  induction array as [|y rest IH]; simpl; [done|].
  destruct (Nat.eqb_spec y x) as [->|Hne]; [done|].
  destruct (indexOf rest x) as [k|]; simpl.
  - split; [done|]. intros H. apply IH in H. done.
  - split; [|done]. intros _. by apply IH.
Qed.

Lemma indexOf_is_Some array x : (0 < occ x array)%nat -> exists i, indexOf array x = Some i.
Proof.
  intros H. destruct (indexOf array x) as [i|] eqn:E; [by exists i|].
  apply indexOf_None in E. lia.
Qed.

Lemma indexOf_occ array x i : indexOf array x = Some i -> (0 < occ x array)%nat.
Proof.
  intros H. destruct (occ x array) eqn:E; [|lia].
  apply indexOf_None in E. congruence.
Qed.

Lemma occ_app x l1 l2 : occ x (l1 ++ l2) = (occ x l1 + occ x l2)%nat.
Proof. induction l1 as [|y l1 IH]; simpl; [done|]. rewrite IH. lia. Qed.

Lemma occ_delete x y (l : list nat) i :
  l !! i = Some y ->
  occ x (delete i l) = (occ x l - (if (y =? x)%nat then 1 else 0))%nat.
Proof.
  revert i. induction l as [|z l IH]; intros [|i]; simpl; try done.
  - intros [= ->]. lia.
  - intros H. rewrite (IH _ H).
    destruct (Nat.eqb_spec y x) as [->|]; [|lia].
    assert (0 < occ x l)%nat; [|lia].
    clear IH. revert i H. induction l as [|u l IH]; intros [|i]; simpl; try done.
    + intros [= ->]. rewrite Nat.eqb_refl. lia.
    + intros H. specialize (IH _ H). lia.
Qed.

Lemma occ_elem_of x (l : list nat) : (0 < occ x l)%nat <-> x ∈ l.
Proof.
  induction l as [|y l IH]; simpl.
  - split; [lia|]. by intros ?%elem_of_nil.
  - rewrite elem_of_cons. destruct (Nat.eqb_spec y x) as [->|Hne].
    + split; [by left|lia].
    + rewrite <- IH. split; [intros; right; lia|]. intros [->|?]; [done|lia].
Qed.

Section IterationFacts.
Context {St A : Type}.
Implicit Types (arr : St -> list A) (body : A -> St -> option St).

(** A loop whose body never lengthens the array it runs over ends within
    the budget. *)
Lemma for_of_terminates arr body :
  (forall x st, exists st', body x st = Some st'
                            /\ (length (arr st') <= length (arr st))%nat) ->
  forall fuel i st, (length (arr st) - i < fuel)%nat ->
  exists st', for_of fuel arr body i st = Some st'.
Proof.
  intros Hbody. induction fuel as [|fuel IH]; intros i st Hlen; simpl; [lia|].
  destruct (arr st !! i) as [x|] eqn:E; [|by eexists].
  apply lookup_lt_Some in E.
  destruct (Hbody x st) as (st' & -> & Hle). apply IH. lia.
Qed.

(** An invariant of the body is an invariant of the loop. *)
Lemma for_of_inv (P : St -> Prop) arr body :
  (forall x st st', P st -> body x st = Some st' -> P st') ->
  forall fuel i st st', P st -> for_of fuel arr body i st = Some st' -> P st'.
Proof.
  intros Hbody. induction fuel as [|fuel IH]; intros i st st' HP; simpl; [done|].
  destruct (arr st !! i) as [x|]; [|by intros [= <-]].
  destruct (body x st) as [st1|] eqn:E; [|done].
  apply IH. by eapply Hbody.
Qed.

(** A loop whose body leaves the array alone visits every element once, in
    order. *)
Lemma for_of_fold arr body (f : A -> St -> St) :
  (forall x st, body x st = Some (f x st)) ->
  (forall x st, arr (f x st) = arr st) ->
  forall fuel i st, (length (arr st) - i < fuel)%nat ->
  for_of fuel arr body i st =
    Some (fold_left (fun st x => f x st) (drop i (arr st)) st).
Proof.
  intros Hbody Harr. induction fuel as [|fuel IH]; intros i st Hlen; simpl; [lia|].
  destruct (arr st !! i) as [x|] eqn:E.
  - pose proof (lookup_lt_Some _ _ _ E).
    rewrite Hbody, IH by (rewrite Harr; lia).
    rewrite Harr. by rewrite (drop_S _ _ _ E).
  - apply lookup_ge_None in E. by rewrite drop_ge.
Qed.
End IterationFacts.

(** ** Membership bookkeeping *)

Lemma Entity_removeSystem_cache e s w e' s' :
  in_cache (Entity_removeSystem e s w) e' s' = (in_cache w e' s' - delta s s' e e')%nat.
Proof.
  unfold in_cache, Entity_removeSystem, delta.
  destruct (indexOf (Entity.systems (ent w e)) s) as [i|] eqn:E; simpl.
  - destruct (Nat.eqb_spec e' e) as [->|Hne]; simpl.
    + rewrite fastSplice_one, (occ_delete _ _ _ _ (indexOf_Some _ _ _ E)).
      rewrite (Nat.eqb_sym s' s). destruct (s =? s')%nat; simpl; lia.
    + rewrite andb_false_r. lia.
  - apply indexOf_None in E.
    destruct (Nat.eqb_spec s' s) as [->|]; destruct (Nat.eqb_spec e' e) as [->|];
      simpl; lia.
Qed.

Lemma Entity_removeSystem_members e s w s' :
  System.entities (sys (Entity_removeSystem e s w) s') = System.entities (sys w s').
Proof. unfold Entity_removeSystem. by destruct (indexOf _ _). Qed.

Lemma System_addEntity_in_system s e w s' e' :
  in_system (System_addEntity s e w) s' e' = (in_system w s' e' + delta s s' e e')%nat.
Proof.
  unfold in_system, System_addEntity, delta. simpl.
  destruct (Nat.eqb_spec s' s) as [->|]; simpl; [|lia].
  rewrite occ_app. simpl. rewrite (Nat.eqb_sym e e'). lia.
Qed.

Lemma System_addEntity_in_cache s e w s' e' :
  in_cache (System_addEntity s e w) e' s' = (in_cache w e' s' + delta s s' e e')%nat.
Proof.
  unfold in_cache, System_addEntity, delta. simpl.
  destruct (Nat.eqb_spec e' e) as [->|]; simpl; [|rewrite andb_false_r; lia].
  rewrite occ_app, andb_true_r. simpl. rewrite (Nat.eqb_sym s s'). lia.
Qed.

Lemma System_removeEntity_in_system s e w s' e' :
  in_system (System_removeEntity s e w) s' e' = (in_system w s' e' - delta s s' e e')%nat.
Proof.
  unfold in_system, System_removeEntity, delta.
  destruct (indexOf (System.entities (sys w s)) e) as [i|] eqn:E; simpl.
  - destruct (Nat.eqb_spec s' s) as [->|Hne]; simpl.
    + rewrite Entity_removeSystem_members.
      rewrite fastSplice_one, (occ_delete _ _ _ _ (indexOf_Some _ _ _ E)).
      rewrite (Nat.eqb_sym e' e). destruct (e =? e')%nat; simpl; lia.
    + rewrite Entity_removeSystem_members. lia.
  - apply indexOf_None in E.
    destruct (Nat.eqb_spec s' s) as [->|]; destruct (Nat.eqb_spec e' e) as [->|];
      simpl; lia.
Qed.

Lemma System_removeEntity_in_cache s e w s' e' :
  in_cache (System_removeEntity s e w) e' s' =
    (in_cache w e' s' - (if (0 <? in_system w s e)%nat then delta s s' e e' else 0))%nat.
Proof.
  unfold System_removeEntity, in_system.
  destruct (indexOf (System.entities (sys w s)) e) as [i|] eqn:E.
  - rewrite (proj2 (Nat.ltb_lt _ _) (indexOf_occ _ _ _ E)).
    change (in_cache (Entity_removeSystem e s w) e' s' =
              (in_cache w e' s' - delta s s' e e')%nat).
    apply Entity_removeSystem_cache.
  - apply indexOf_None in E. rewrite E. simpl. lia.
Qed.

Lemma System_addEntity_agreement s e w :
  agreement w -> agreement (System_addEntity s e w).
Proof.
  intros H s' e'. rewrite System_addEntity_in_system, System_addEntity_in_cache.
  by rewrite H.
Qed.

Lemma System_removeEntity_agreement s e w :
  agreement w -> agreement (System_removeEntity s e w).
Proof.
  intros H s' e'. rewrite System_removeEntity_in_system, System_removeEntity_in_cache.
  rewrite <- H. destruct (Nat.ltb_spec 0 (in_system w s e)); [done|].
  unfold delta. destruct (Nat.eqb_spec s' s) as [->|]; destruct (Nat.eqb_spec e' e) as [->|];
    simpl; lia.
Qed.

(** ** Reconciliation *)

Lemma same_static_refl w : same_static w w.
Proof. by repeat split. Qed.

Lemma same_static_trans w1 w2 w3 :
  same_static w1 w2 -> same_static w2 w3 -> same_static w1 w3.
Proof.
  intros (A1 & A2 & A3 & A4 & A5 & A6 & A7) (B1 & B2 & B3 & B4 & B5 & B6 & B7).
  repeat split; try congruence.
  - destruct (A5 e) as (? & ? & ?), (B5 e) as (? & ? & ?). congruence.
  - destruct (A5 e) as (? & ? & ?), (B5 e) as (? & ? & ?). congruence.
  - destruct (A5 e) as (? & ? & ?), (B5 e) as (? & ? & ?). congruence.
  - destruct (A6 s), (B6 s). congruence.
  - destruct (A6 s), (B6 s). congruence.
Qed.

Lemma same_static_test w w' s e :
  same_static w w' -> System_test s e w' = System_test s e w.
Proof.
  intros (_ & _ & _ & _ & He & Hs & Hc). unfold System_test, components_of.
  destruct (He e) as (-> & _ & ->), (Hs s) as (_ & ->). by rewrite Hc.
Qed.

Lemma batches_app tr1 tr2 : batches (tr1 ++ tr2) = batches tr1 ++ batches tr2.
Proof.
  induction tr1 as [|ev tr1 IH]; simpl; [done|].
  destruct ev; simpl; by rewrite ?IH.
Qed.

Ltac eqb_cases :=
  repeat match goal with
    | |- context [(?a =? ?b)%nat] => destruct (Nat.eqb_spec a b); try subst; simpl
    end.

Lemma Entity_removeSystem_static e s w :
  same_static w (Entity_removeSystem e s w)
  /\ ECS.entitiesSystemsDirty (ecs (Entity_removeSystem e s w)) = ECS.entitiesSystemsDirty (ecs w)
  /\ (forall e', Entity.systemsDirty (ent (Entity_removeSystem e s w) e') = Entity.systemsDirty (ent w e'))
  /\ trace (Entity_removeSystem e s w) = trace w.
Proof.
  unfold Entity_removeSystem. destruct (indexOf _ _); [|by repeat split].
  repeat split; intros; simpl; eqb_cases; done.
Qed.

Lemma System_addEntity_static s e w :
  same_static w (System_addEntity s e w)
  /\ ECS.entitiesSystemsDirty (ecs (System_addEntity s e w)) = ECS.entitiesSystemsDirty (ecs w)
  /\ (forall e', Entity.systemsDirty (ent (System_addEntity s e w) e') = Entity.systemsDirty (ent w e')).
Proof.
  unfold System_addEntity.
  repeat split; intros; simpl; rewrite ?batches_app; simpl; rewrite ?app_nil_r; eqb_cases; done.
Qed.

Lemma System_removeEntity_static s e w :
  same_static w (System_removeEntity s e w)
  /\ ECS.entitiesSystemsDirty (ecs (System_removeEntity s e w)) = ECS.entitiesSystemsDirty (ecs w)
  /\ (forall e', Entity.systemsDirty (ent (System_removeEntity s e w) e') = Entity.systemsDirty (ent w e')).
Proof.
  unfold System_removeEntity. destruct (indexOf _ _); [|by repeat split].
  destruct (Entity_removeSystem_static e s w) as ((A1 & A2 & A3 & A4 & A5 & A6 & A7) & Hq & Hd & Ht).
  repeat split; intros; simpl; rewrite ?batches_app, ?Ht; simpl; rewrite ?app_nil_r;
    try done; try apply A5.
  - eqb_cases; apply A6.
  - eqb_cases; apply A6.
Qed.

Lemma reconcile_static e s w :
  same_static w (reconcile e s w)
  /\ ECS.entitiesSystemsDirty (ecs (reconcile e s w)) = ECS.entitiesSystemsDirty (ecs w)
  /\ (forall e', Entity.systemsDirty (ent (reconcile e s w) e') = Entity.systemsDirty (ent w e')).
Proof.
  unfold reconcile.
  destruct (is_minus_one _ && _); [apply System_addEntity_static|].
  destruct (negb _ && _); [apply System_removeEntity_static|].
  split; [apply same_static_refl|done].
Qed.

Lemma reconcile_in_system e s w s' e' :
  agreement w -> no_duplicates w ->
  in_system (reconcile e s w) s' e' =
    if (s' =? s)%nat && (e' =? e)%nat
    then (if System_test s e w then 1%nat else 0%nat)
    else in_system w s' e'.
Proof.
  intros Hag Hnd. unfold reconcile.
  destruct (indexOf (Entity.systems (ent w e)) s) as [i|] eqn:E; simpl.
  - apply indexOf_occ in E. fold (in_cache w e s) in E. rewrite <- Hag in E.
    pose proof (Hnd s e).
    destruct (System_test s e w); simpl.
    + destruct (Nat.eqb_spec s' s) as [->|]; destruct (Nat.eqb_spec e' e) as [->|];
        simpl; lia.
    + rewrite System_removeEntity_in_system. unfold delta.
      destruct (Nat.eqb_spec s' s) as [->|]; destruct (Nat.eqb_spec e' e) as [->|];
        simpl; lia.
  - apply indexOf_None in E. fold (in_cache w e s) in E. rewrite <- Hag in E.
    destruct (System_test s e w); simpl.
    + rewrite System_addEntity_in_system. unfold delta.
      destruct (Nat.eqb_spec s' s) as [->|]; destruct (Nat.eqb_spec e' e) as [->|];
        simpl; lia.
    + destruct (Nat.eqb_spec s' s) as [->|]; destruct (Nat.eqb_spec e' e) as [->|];
        simpl; lia.
Qed.

Lemma reconcile_agreement e s w : agreement w -> agreement (reconcile e s w).
Proof.
  intros H. unfold reconcile.
  destruct (is_minus_one _ && _); [by apply System_addEntity_agreement|].
  destruct (negb _ && _); [by apply System_removeEntity_agreement|done].
Qed.

Lemma reconcile_reconciled w0 w D e s :
  reconciled w0 w D ->
  reconciled w0 (reconcile e s w) (fun e' s' => D e' s' \/ (e' = e /\ s' = s)).
Proof.
  intros (Hag & Hnd & Hst & HD).
  assert (Hin := fun s' e' => reconcile_in_system e s w s' e' Hag Hnd).
  rewrite (same_static_test _ _ _ _ Hst) in Hin.
  split; [by apply reconcile_agreement|].
  split.
  { intros s' e'. rewrite Hin. pose proof (Hnd s' e').
    destruct (_ && _); [destruct (System_test s e w0)|]; lia. }
  split.
  { eapply same_static_trans; [done|apply reconcile_static]. }
  intros e' s'. rewrite Hin.
  destruct (Nat.eqb_spec s' s) as [->|Hs]; destruct (Nat.eqb_spec e' e) as [->|He];
    simpl; (split; [intros [Hd|[? ?]]|intros Hn]); try done;
    try (by apply HD); try (by exfalso; apply Hn; right);
    try (apply HD; intros ?; apply Hn; by left).
Qed.

Lemma reconciled_ext w0 w (D D' : EntRef -> SysRef -> Prop) :
  (forall e s, D e s <-> D' e s) -> reconciled w0 w D -> reconciled w0 w D'.
Proof.
  intros HDD (Hag & Hnd & Hst & HD). repeat split; try done; try apply Hst.
  - intros ?%HDD. by apply HD.
  - intros Hn. apply HD. by rewrite HDD.
Qed.

Lemma clear_flag_reconciled w0 w D e :
  reconciled w0 w D -> reconciled w0 (upd_ent e (set_systemsDirty false) w) D.
Proof.
  intros (Hag & Hnd & Hst & HD). split; [|split; [|split]]; try done.
  - intros s' e'. specialize (Hag s' e'). unfold in_system, in_cache in *. simpl.
    by eqb_cases.
  - eapply same_static_trans; [done|]. repeat split; intros; simpl; by eqb_cases.
Qed.

Lemma fold_reconcile_reconciled w0 e systems : forall w D,
  reconciled w0 w D ->
  reconciled w0 (fold_left (fun w system => reconcile e system w) systems w)
    (fun e' s' => D e' s' \/ (e' = e /\ s' ∈ systems)).
Proof.
  induction systems as [|s systems IH]; intros w D H; simpl.
  - eapply reconciled_ext; [|done]. intros e' s'. split; [by left|].
    intros [?|[_ ?%elem_of_nil]]; done.
  - eapply reconciled_ext; [|apply IH, reconcile_reconciled, H].
    intros e' s'. simpl. rewrite elem_of_cons. tauto.
Qed.

Lemma clean_all_reconciled w0 systems queue : forall w D,
  reconciled w0 w D ->
  reconciled w0 (clean_all queue systems w)
    (fun e' s' => D e' s' \/ (e' ∈ queue /\ s' ∈ systems)).
Proof.
  induction queue as [|e queue IH]; intros w D H; simpl.
  - eapply reconciled_ext; [|done]. intros e' s'. split; [by left|].
    intros [?|[?%elem_of_nil _]]; done.
  - eapply reconciled_ext;
      [|apply IH, clear_flag_reconciled, fold_reconcile_reconciled, H].
    intros e' s'. simpl. rewrite elem_of_cons. tauto.
Qed.

Lemma fold_reconcile_ecs e systems : forall w,
  ecs (fold_left (fun w system => reconcile e system w) systems w) = ecs w.
Proof.
  induction systems as [|s systems IH]; intros w; simpl; [done|].
  rewrite IH. unfold reconcile, System_addEntity, System_removeEntity, Entity_removeSystem.
  repeat case_match; done.
Qed.

Lemma clean_entity_ecs systems e w : ecs (clean_entity systems e w) = ecs w.
Proof. unfold clean_entity. simpl. apply fold_reconcile_ecs. Qed.

Lemma clean_all_ecs systems queue : forall w,
  ecs (clean_all queue systems w) = ecs w.
Proof.
  induction queue as [|e queue IH]; intros w; [done|].
  unfold clean_all in *. simpl. by rewrite IH, clean_entity_ecs.
Qed.

Lemma clean_all_reads_systems queue : forall systems w,
  ECS.systems (ecs w) = systems ->
  fold_left (fun st x => clean_entity (ECS.systems (ecs st)) x st) queue w
  = clean_all queue systems w.
Proof.
  induction queue as [|e queue IH]; intros systems w Hs; [done|].
  unfold clean_all in *. simpl. rewrite Hs. apply IH.
  by rewrite clean_entity_ecs.
Qed.

(** The loops of [cleanDirtyEntities] end within their budgets and visit
    every queued entity and, for each, every system, in order. *)
Lemma ECS_cleanDirtyEntities_closed w :
  ECS_cleanDirtyEntities w =
    Some (upd_ecs (set_dirtyQueue [])
            (clean_all (ECS.entitiesSystemsDirty (ecs w)) (ECS.systems (ecs w)) w)).
Proof.
  unfold ECS_cleanDirtyEntities.
  rewrite (for_of_fold _ _ (fun e st => clean_entity (ECS.systems (ecs st)) e st)).
  - do 2 f_equal. rewrite drop_0. by apply clean_all_reads_systems.
  - intros e st.
    rewrite (for_of_fold _ _ (fun s st => reconcile e s st)); try done.
    + intros s st'. f_equal. apply (fold_reconcile_ecs e [s]).
    + lia.
  - intros e st. f_equal. apply clean_entity_ecs.
  - lia.
Qed.

Lemma fold_reconcile_flag e systems e' : forall w,
  Entity.systemsDirty (ent (fold_left (fun w system => reconcile e system w) systems w) e')
  = Entity.systemsDirty (ent w e').
Proof.
  induction systems as [|s systems IH]; intros w; simpl; [done|].
  rewrite IH. apply reconcile_static.
Qed.

Lemma clean_all_flag systems queue e : forall w,
  Entity.systemsDirty (ent (clean_all queue systems w) e) =
    if bool_decide (e ∈ queue) then false else Entity.systemsDirty (ent w e).
Proof.
  induction queue as [|x queue IH]; intros w.
  - rewrite bool_decide_eq_false_2; [done|]. by intros ?%elem_of_nil.
  - unfold clean_all in *. simpl. rewrite IH.
    destruct (bool_decide (e ∈ queue)) eqn:E.
    + apply bool_decide_eq_true in E. rewrite bool_decide_eq_true_2; [done|].
      by right.
    + apply bool_decide_eq_false in E. unfold clean_entity. simpl.
      destruct (Nat.eqb_spec e x) as [->|Hne]; simpl.
      * rewrite bool_decide_eq_true_2; [done|]. by left.
      * rewrite bool_decide_eq_false_2.
        -- apply fold_reconcile_flag.
        -- rewrite elem_of_cons. tauto.
Qed.


Lemma fold_reconcile_agreement e systems : forall w,
  agreement w ->
  agreement (fold_left (fun w system => reconcile e system w) systems w).
Proof.
  induction systems as [|s systems IH]; intros w H; simpl; [done|].
  by apply IH, reconcile_agreement.
Qed.

Lemma clean_all_agreement systems queue : forall w,
  agreement w -> agreement (clean_all queue systems w).
Proof.
  induction queue as [|e queue IH]; intros w H; [done|].
  unfold clean_all in *. simpl. apply IH. unfold clean_entity.
  pose proof (fold_reconcile_agreement e systems w H) as Hf.
  intros s' e'. specialize (Hf s' e'). unfold in_system, in_cache in *. simpl.
  by eqb_cases.
Qed.

(** ** The tick *)

Lemma reconcile_batches e s w : batches (trace (reconcile e s w)) = batches (trace w).
Proof.
  unfold reconcile, System_addEntity, System_removeEntity, Entity_removeSystem.
  repeat case_match; simpl; rewrite ?batches_app; simpl; by rewrite ?app_nil_r.
Qed.

Lemma fold_reconcile_batches e systems : forall w,
  batches (trace (fold_left (fun w system => reconcile e system w) systems w))
  = batches (trace w).
Proof.
  induction systems as [|s systems IH]; intros w; simpl; [done|].
  by rewrite IH, reconcile_batches.
Qed.

Lemma fold_reconcile_static e systems : forall w,
  same_static w (fold_left (fun w system => reconcile e system w) systems w).
Proof.
  induction systems as [|s systems IH]; intros w; simpl; [apply same_static_refl|].
  eapply same_static_trans; [apply reconcile_static|apply IH].
Qed.

Lemma clean_all_batches systems queue : forall w,
  batches (trace (clean_all queue systems w)) = batches (trace w).
Proof.
  induction queue as [|e queue IH]; intros w; [done|].
  unfold clean_all in *. simpl. rewrite IH. unfold clean_entity. simpl.
  apply fold_reconcile_batches.
Qed.

Lemma clean_all_static systems queue w : same_static w (clean_all queue systems w).
Proof.
  revert w. induction queue as [|e queue IH]; intros w; [apply same_static_refl|].
  unfold clean_all in *. simpl. eapply same_static_trans; [|apply IH].
  unfold clean_entity. eapply same_static_trans; [apply fold_reconcile_static|].
  repeat split; intros; simpl; by eqb_cases.
Qed.

Lemma fold_update_calls s elapsed members : forall w,
  let w' := fold_left (fun w e => call (Update s e elapsed) w) members w in
  ent w' = ent w /\ sys w' = sys w /\ ecs w' = ecs w
  /\ trace w' = trace w ++ map (fun e => Update s e elapsed) members.
Proof.
  induction members as [|e members IH]; intros w; simpl.
  - by rewrite app_nil_r.
  - destruct (IH (call (Update s e elapsed) w)) as (-> & -> & -> & ->).
    simpl. by rewrite <- app_assoc.
Qed.

(** [updateAll] ends within its budget: it calls [preUpdate], then [update]
    on every member in list order, then [postUpdate], and changes nothing
    else. *)
Lemma System_updateAll_closed s elapsed w :
  exists w', System_updateAll s elapsed w = Some w'
    /\ ent w' = ent w /\ sys w' = sys w /\ ecs w' = ecs w
    /\ trace w' = trace w ++ PreUpdate s
                    :: map (fun e => Update s e elapsed) (System.entities (sys w s))
                    ++ [PostUpdate s].
Proof.
  unfold System_updateAll.
  rewrite (for_of_fold _ _ (fun e w => call (Update s e elapsed) w)); try done;
    [|simpl; lia].
  eexists. split; [done|]. rewrite drop_0.
  destruct (fold_update_calls s elapsed (System.entities (sys (call (PreUpdate s) w) s))
              (call (PreUpdate s) w)) as (He & Hs & Hc & Ht).
  simpl in *. rewrite He, Hs, Hc, Ht. repeat split; try done.
  rewrite <- !app_assoc. done.
Qed.

Lemma fold_update_calls_comp s elapsed members w :
  comp (fold_left (fun w e => call (Update s e elapsed) w) members w) = comp w.
Proof.
  revert w. induction members as [|e members IH]; intros w; simpl; [done|].
  by rewrite IH.
Qed.

(** [updateAll] writes to no component object. *)
Lemma System_updateAll_comp s elapsed w w' :
  System_updateAll s elapsed w = Some w' -> comp w' = comp w.
Proof.
  unfold System_updateAll.
  rewrite (for_of_fold _ _ (fun e w => call (Update s e elapsed) w)); try done;
    [|simpl; lia].
  intros [= <-]. simpl. by rewrite fold_update_calls_comp.
Qed.

Lemma batches_updates s elapsed members :
  batches (map (fun e => Update s e elapsed) members) = [].
Proof. induction members; simpl; done. Qed.

Lemma gate_miss_due s w :
  0 <= ECS.updateCounter (ecs w) -> System.frequency (sys w s) <> 0 ->
  gate_miss s w = false <-> due w s.
Proof.
  intros Hc Hf. unfold gate_miss, due, js_rem.
  destruct (Z.eqb_spec (System.frequency (sys w s)) 0); [done|]. simpl.
  rewrite <- Z.rem_divide by done.
  pose proof (Z.rem_nonneg (ECS.updateCounter (ecs w)) (System.frequency (sys w s)) Hf Hc).
  destruct (Z.ltb_spec 0 (Z.rem (ECS.updateCounter (ecs w)) (System.frequency (sys w s))));
    split; intros; try done; lia.
Qed.

(** One pass of the body of the loop of [update] for a system that passes
    its gate. *)
Lemma update_body_pass elapsed s w :
  gate_miss s w = false ->
  exists w', update_body elapsed s w = Some (false, w')
    /\ same_static w w'
    /\ batches (trace w') = batches (trace w) ++ [s]
    /\ (agreement w -> agreement w').
Proof.
  intros Hg. unfold update_body. rewrite Hg.
  set (w1o := if (0 <? _)%nat then _ else _).
  assert (exists w1, w1o = Some w1 /\ same_static w w1
                     /\ batches (trace w1) = batches (trace w)
                     /\ (agreement w -> agreement w1))
    as (w1 & -> & Hst & Hb & Hag).
  { subst w1o. destruct (0 <? _)%nat.
    - rewrite ECS_cleanDirtyEntities_closed. eexists. split; [done|]. split; [|split].
      + eapply same_static_trans; [apply clean_all_static|]. by repeat split.
      + simpl. apply clean_all_batches.
      + intros H. by apply (clean_all_agreement _ _ w).
    - eexists. split; [done|]. split; [apply same_static_refl|done]. }
  destruct (System_updateAll_closed s elapsed w1) as (w2 & Hw2 & He & Hs & Hc & Ht).
  pose proof (System_updateAll_comp _ _ _ _ Hw2) as Hcomp. rewrite Hw2.
  eexists. split; [done|]. split; [|split].
  - eapply same_static_trans; [done|]. unfold same_static. rewrite He, Hs, Hc, Hcomp.
    by repeat split.
  - rewrite Ht, batches_app. simpl. rewrite batches_app, batches_updates. simpl.
    by rewrite Hb.
  - intros H s' e'. unfold in_system, in_cache. rewrite He, Hs. by apply Hag.
Qed.

Lemma same_static_gate w w' s : same_static w w' -> gate_miss s w' = gate_miss s w.
Proof.
  intros (_ & _ & Hc & _ & _ & Hs & _). unfold gate_miss. rewrite Hc.
  by destruct (Hs s) as (-> & _).
Qed.

Lemma update_loop elapsed w0 : forall fuel i w,
  same_static w0 w ->
  (length (ECS.systems (ecs w0)) - i < fuel)%nat ->
  exists w' k, for_of_break fuel (fun w => ECS.systems (ecs w)) (update_body elapsed) i w = Some w'
    /\ same_static w0 w'
    /\ batches (trace w') = batches (trace w) ++ take k (drop i (ECS.systems (ecs w0)))
    /\ (forall j s, (j < k)%nat -> drop i (ECS.systems (ecs w0)) !! j = Some s ->
          gate_miss s w0 = false)
    /\ (forall s, drop i (ECS.systems (ecs w0)) !! k = Some s -> gate_miss s w0 = true)
    /\ (agreement w -> agreement w').
Proof.
  induction fuel as [|fuel IH]; intros i w Hst Hlen; [lia|]. simpl.
  assert (Hsys : ECS.systems (ecs w) = ECS.systems (ecs w0)) by apply Hst.
  rewrite Hsys.
  destruct (ECS.systems (ecs w0) !! i) as [s|] eqn:E.
  - destruct (gate_miss s w0) eqn:Hg.
    + unfold update_body at 1. rewrite (same_static_gate _ _ _ Hst), Hg.
      exists w, O. split; [done|]. split; [done|]. split; [by rewrite take_0, app_nil_r|].
      split; [lia|]. split; [|done].
      intros s'. rewrite lookup_drop, Nat.add_0_r, E. by intros [= <-].
    + destruct (update_body_pass elapsed s w) as (w1 & Hb & Hst1 & Hb1 & Hag1).
      { by rewrite (same_static_gate _ _ _ Hst). }
      rewrite Hb.
      destruct (IH (S i) w1) as (w' & k & Hr & Hst' & Hb' & Hlt & Hk & Hag').
      { eapply same_static_trans; done. }
      { apply lookup_lt_Some in E. lia. }
      exists w', (S k). split; [done|]. split; [done|].
      rewrite (drop_S _ _ _ E). split.
      * rewrite Hb', Hb1. simpl. by rewrite <- app_assoc.
      * split.
        -- intros [|j] s' Hj; simpl; [by intros [= <-]|]. apply Hlt. lia.
        -- split; [intros s'; simpl; apply Hk|]. intros H. by apply Hag', Hag1.
  - exists w, O. split; [done|]. split; [done|].
    apply lookup_ge_None in E. rewrite drop_ge by done.
    split; [by rewrite app_nil_r|]. split; [lia|done].
Qed.

(** C2: a tick ends; it runs the batch update of the systems at the first
    [k] positions of the systems list, in list order and once each, where
    every system before position [k] is due (its frequency divides the tick
    counter) and the system at position [k], if there is one, is not.  So a
    system all of whose predecessors are due runs exactly when it is due
    itself, and no system after the first one that is not due runs.  The
    counter advances by one. *)
Theorem C2_update_frequency_gate (now : Z) (w : World) :
  0 <= ECS.updateCounter (ecs w) ->
  (forall s, s ∈ ECS.systems (ecs w) -> System.frequency (sys w s) <> 0) ->
  exists w' k, ECS_update now w = Some w'
    /\ ECS.updateCounter (ecs w') = ECS.updateCounter (ecs w) + 1
    /\ batches (trace w') = batches (trace w) ++ take k (ECS.systems (ecs w))
    /\ (forall j s, ECS.systems (ecs w) !! j = Some s ->
          (forall i s', (i < j)%nat -> ECS.systems (ecs w) !! i = Some s' -> due w s') ->
          ((j < k)%nat <-> due w s))
    /\ (forall i j s, (i < j)%nat -> ECS.systems (ecs w) !! i = Some s ->
          ~ due w s -> ~ (j < k)%nat).
Proof.
  intros Hc Hf. unfold ECS_update.
  destruct (update_loop (now - ECS.lastUpdate (ecs w)) w
              (S (length (ECS.systems (ecs w)))) O w (same_static_refl w))
    as (w' & k & -> & Hst & Hb & Hlt & Hk & _); [lia|].
  rewrite drop_0 in *.
  assert (Hdue : forall j s, ECS.systems (ecs w) !! j = Some s ->
                   gate_miss s w = false <-> due w s).
  { intros j s Hj. apply gate_miss_due; [done|]. apply Hf.
    by apply list_elem_of_lookup_2 in Hj. }
  exists (upd_ecs (fun c => set_clock (ECS.updateCounter c + 1) now c) w'), k.
  split; [done|]. split.
  { simpl. destruct Hst as (_ & _ & -> & _). done. }
  split; [exact Hb|]. split.
  - intros j s Hj Hprev. split.
    + intros Hjk. apply (Hdue j s Hj). by apply (Hlt j).
    + intros Hd. destruct (decide (j < k)%nat) as [|Hge]; [done|]. exfalso.
      destruct (decide (k = j)) as [->|Hne].
      * apply (Hdue j s Hj) in Hd. rewrite (Hk s Hj) in Hd. done.
      * destruct (ECS.systems (ecs w) !! k) as [s'|] eqn:Ek.
        -- assert (due w s') as Hd' by (apply (Hprev k); [lia|done]).
           apply (Hdue k s' Ek) in Hd'. rewrite (Hk s' eq_refl) in Hd'. done.
        -- apply lookup_ge_None in Ek. apply lookup_lt_Some in Hj. lia.
  - intros i j s Hij Hi Hnd Hjk. apply Hnd, (Hdue i s Hi), (Hlt i); [lia|done].
Qed.

Lemma ECS_update_gate_miss (now : Z) (w : World) (s : SysRef) (rest : list SysRef) :
  ECS.systems (ecs w) = s :: rest ->
  gate_miss s w = true ->
  ECS_update now w =
    Some (upd_ecs (fun c => set_clock (ECS.updateCounter c + 1) now c) w).
Proof.
  intros Hs Hg. unfold ECS_update. rewrite Hs. simpl. rewrite Hs. simpl.
  unfold update_body. by rewrite Hg.
Qed.

(** C10: when the first system of the list misses its gate, the tick only
    advances the counter and the clock: no reconciliation runs, no hook is
    called, the dirty queue and every dirty flag are as before. *)
Theorem C10_gate_miss_skips_reconciliation (now : Z) (w : World)
    (s : SysRef) (rest : list SysRef) :
  ECS.systems (ecs w) = s :: rest ->
  gate_miss s w = true ->
  exists w', ECS_update now w = Some w'
    /\ ECS.entitiesSystemsDirty (ecs w') = ECS.entitiesSystemsDirty (ecs w)
    /\ (forall e, e ∈ ECS.entitiesSystemsDirty (ecs w) ->
          Entity.systemsDirty (ent w e) = true ->
          e ∈ ECS.entitiesSystemsDirty (ecs w')
          /\ Entity.systemsDirty (ent w' e) = true)
    /\ ent w' = ent w /\ sys w' = sys w /\ trace w' = trace w
    /\ ECS.updateCounter (ecs w') = ECS.updateCounter (ecs w) + 1.
Proof.
  intros Hs Hg. rewrite (ECS_update_gate_miss now w s rest Hs Hg).
  eexists. split; [done|]. simpl. repeat split; done.
Qed.

(** Within a tick the dirty queue changes only if the first system of the
    list passes its gate. *)
Lemma ECS_update_reconciles_only_after_pass (now : Z) (w w' : World) :
  ECS_update now w = Some w' ->
  ECS.entitiesSystemsDirty (ecs w') <> ECS.entitiesSystemsDirty (ecs w) ->
  exists s rest, ECS.systems (ecs w) = s :: rest /\ gate_miss s w = false.
Proof.
  intros Hu Hq. destruct (ECS.systems (ecs w)) as [|s rest] eqn:Hs.
  - exfalso. apply Hq. unfold ECS_update in Hu. rewrite Hs in Hu. simpl in Hu.
    rewrite Hs in Hu. simpl in Hu. by injection Hu as <-.
  - exists s, rest. split; [done|]. destruct (gate_miss s w) eqn:Hg; [|done].
    exfalso. apply Hq.
    rewrite (ECS_update_gate_miss now w s rest Hs Hg) in Hu.
    by injection Hu as <-.
Qed.

(** ** Dirty marking *)

Lemma marks_refl e w : marks e w w.
Proof.
  repeat split; try done. exists []. rewrite app_nil_r. simpl.
  repeat split; try done; lia.
Qed.

Lemma marks_trans e w1 w2 w3 : marks e w1 w2 -> marks e w2 w3 -> marks e w1 w3.
Proof.
  intros (A1 & A2 & A3 & a & Aq & Ale & Ad & Ae & At)
         (B1 & B2 & B3 & b & Bq & Ble & Bd & Be & Bt).
  split; [congruence|]. split; [auto|]. split.
  { intros H. rewrite B3, A3; congruence. }
  exists (a ++ b). rewrite Bq, Aq, <- app_assoc, occ_app.
  split; [done|].
  destruct (Entity.systemsDirty (ent w1 e)) eqn:D1.
  - rewrite (Ad eq_refl), (Bd (A2 eq_refl)). repeat split; intros; try done; lia.
  - destruct (Nat.eq_dec (occ e a) 1) as [Ha|Ha].
    + rewrite (Bd (At Ha)). repeat split; intros; try done; try lia.
      * specialize (Ae ltac:(done)). lia.
      * apply B2, At, Ha.
    + assert (occ e a = O) as -> by lia. repeat split; intros; try done.
      * apply Be. congruence.
      * by apply Bt.
Qed.

Lemma Entity_setSystemsDirty_marks e x w : marks e w (Entity_setSystemsDirty x w).
Proof.
  unfold Entity_setSystemsDirty.
  destruct (Entity.systemsDirty (ent w x)) eqn:D; simpl; [apply marks_refl|].
  destruct (Entity.ecs (ent w x)) eqn:At; simpl; [|apply marks_refl].
  unfold marks. simpl. destruct (Nat.eqb_spec e x) as [->|Hne]; simpl.
  - rewrite D, At. repeat split; try done.
    exists [x]. simpl. rewrite Nat.eqb_refl. repeat split; try done.
  - repeat split; try done. exists [x]. simpl.
    destruct (Nat.eqb_spec x e) as [->|_]; [done|]. simpl.
    repeat split; try done; lia.
Qed.

Lemma set_components_marks e x f w :
  marks e w (upd_ent x (fun o => set_components (f o) o) w).
Proof.
  unfold marks. simpl. destruct (Nat.eqb_spec e x) as [->|Hne]; simpl.
  - repeat split; try done. exists []. rewrite app_nil_r. simpl.
    repeat split; try done; lia.
  - repeat split; try done. exists []. rewrite app_nil_r. simpl.
    repeat split; try done; lia.
Qed.

Lemma run_call_marks e c w : marks e w (run_call c w).
Proof.
  destruct c as [x|x name component|x name]; simpl.
  - apply Entity_setSystemsDirty_marks.
  - unfold Entity_addComponent.
    eapply marks_trans; [|apply Entity_setSystemsDirty_marks].
    apply (set_components_marks e x (fun o => <[name:=component]> (Entity.components o))).
  - unfold Entity_removeComponent.
    destruct (Entity.components (ent w x) !! name); [|apply marks_refl].
    eapply marks_trans; [|apply Entity_setSystemsDirty_marks].
    apply (set_components_marks e x (fun o => delete name (Entity.components o))).
Qed.

Lemma run_calls_marks e cs : forall w, marks e w (run_calls cs w).
Proof.
  induction cs as [|c cs IH]; intros w; [apply marks_refl|].
  unfold run_calls in *. simpl.
  eapply marks_trans; [apply run_call_marks|apply IH].
Qed.

(** C7: over any run of dirty-marking calls the queue only grows, and the
    slots it gains hold a given entity at most once, not at all if the
    entity was already dirty; so a queue that held a clean entity nowhere
    and a dirty one at most once still holds it at most once.  A detached
    entity gains no slot and keeps its flag. *)
Theorem C7_enqueued_at_most_once (cs : list DirtyCall) (w : World) (e : EntRef) :
  exists added,
    ECS.entitiesSystemsDirty (ecs (run_calls cs w))
      = ECS.entitiesSystemsDirty (ecs w) ++ added
    /\ (occ e added <= 1)%nat
    /\ (Entity.systemsDirty (ent w e) = true -> occ e added = O)
    /\ ((queued w e <= if Entity.systemsDirty (ent w e) then 1 else 0)%nat ->
          (queued (run_calls cs w) e <= 1)%nat)
    /\ (Entity.ecs (ent w e) = false ->
          occ e added = O
          /\ Entity.systemsDirty (ent (run_calls cs w) e) = Entity.systemsDirty (ent w e)).
Proof.
  destruct (run_calls_marks e cs w) as (A1 & A2 & A3 & added & Hq & Hle & Hd & He & Ht).
  exists added. split; [done|]. split; [done|]. split; [done|]. split.
  - unfold queued. rewrite Hq, occ_app.
    destruct (Entity.systemsDirty (ent w e)); [rewrite (Hd eq_refl)|]; lia.
  - intros H. split; [by apply He|by apply A3].
Qed.

(** ** Field updates *)

Lemma Entity_updateComponent_loop_frame component hidden data : forall w,
  let w' := outcome_world (Entity_updateComponent_loop component hidden data w) in
  ecs w' = ecs w /\ sys w' = sys w /\ trace w' = trace w /\ ent w' = ent w.
Proof.
  induction data as [|p data IH]; intros w; simpl; [done|].
  destruct hidden; [done|].
  destruct (prop_own p); simpl; [|apply IH].
  destruct component as [c|]; simpl; [|done].
  match goal with |- context [Entity_updateComponent_loop _ _ _ ?w1] =>
    destruct (IH w1) as (-> & -> & -> & ->) end.
  done.
Qed.

(** Whatever the name, the data and the outcome, [updateComponent] leaves
    the coordinator, the systems, the trace and the entities, with their
    dirty flags and membership caches, as they were. *)
Lemma Entity_updateComponent_frame e name data w :
  let w' := outcome_world (Entity_updateComponent e name data w) in
  ecs w' = ecs w /\ sys w' = sys w /\ trace w' = trace w /\ ent w' = ent w.
Proof. apply Entity_updateComponent_loop_frame. Qed.

Lemma hasOwnProperty_hidden_cons {P : Type} (key : P -> string) object :
  hasOwnProperty_hidden key object = true -> exists p rest, object = p :: rest.
Proof. destruct object as [|p rest]; [done|]. by exists p, rest. Qed.

Lemma Entity_updateComponent_loop_hidden component data w :
  hasOwnProperty_hidden prop_key data = true ->
  Entity_updateComponent_loop component true data w = Throws_TypeError w.
Proof. intros H. by destruct (hasOwnProperty_hidden_cons _ _ H) as (p & rest & ->). Qed.

Lemma Entity_updateComponent_loop_absent data : forall w,
  Entity_updateComponent_loop None false data w =
    if has_own data then Throws_TypeError w else Returns w.
Proof.
  induction data as [|p data IH]; intros w; simpl; [done|].
  destruct (prop_own p); simpl; [done|apply IH].
Qed.

(** On an absent name [updateComponent] returns normally, without effect,
    unless [data] has an own field to write or hides [hasOwnProperty]. *)
Lemma Entity_updateComponent_absent e name data w :
  Entity.components (ent w e) !! name = None ->
  Entity_updateComponent e name data w =
    if hasOwnProperty_hidden prop_key data || has_own data
    then Throws_TypeError w else Returns w.
Proof.
  intros H. unfold Entity_updateComponent. rewrite H.
  destruct (hasOwnProperty_hidden prop_key data) eqn:Hh; simpl.
  - by apply Entity_updateComponent_loop_hidden.
  - apply Entity_updateComponent_loop_absent.
Qed.

(** C8: [a.updateComponent("position", data)] on an entity without a
    component [position] returns normally and leaves the store as it was,
    for the empty [data] and for a [data] whose only enumerable property is
    inherited: it raises no error, and it creates no component either.
    With an own field in [data] the call ends in the [TypeError] of the
    write through [undefined]. *)
Theorem C8_updateComponent_absent_name_returns :
  Entity.components (ent fresh_world ent_a) !! "position" = None
  /\ Entity_updateComponent ent_a "position" [] fresh_world = Returns fresh_world
  /\ Entity_updateComponent ent_a "position" [mkProp "x" (VNum 3) false] fresh_world
     = Returns fresh_world
  /\ Entity_updateComponent ent_a "position" [mkProp "x" (VNum 3) true] fresh_world
     = Throws_TypeError fresh_world.
Proof.
  split; [reflexivity|]. split; [|split].
  - exact (Entity_updateComponent_absent ent_a "position" [] fresh_world eq_refl).
  - exact (Entity_updateComponent_absent ent_a "position"
             [mkProp "x" (VNum 3) false] fresh_world eq_refl).
  - exact (Entity_updateComponent_absent ent_a "position"
             [mkProp "x" (VNum 3) true] fresh_world eq_refl).
Qed.

(** ** Redundant calls *)

Lemma Entity_setSystemsDirty_components x w e :
  Entity.components (ent (Entity_setSystemsDirty x w) e) = Entity.components (ent w e).
Proof.
  unfold Entity_setSystemsDirty. destruct (_ && _); simpl; [|done]. by eqb_cases.
Qed.

(** C9, as the code has it: removing a non-member from a system, removing
    an absent system from a cache and removing an absent component change
    nothing, so a second [removeComponent] of a name is a no-op.
    [System.addEntity] has no such guard: it always appends one slot to the
    member list and one to the cache, also for an entity that is already a
    member. *)
Theorem C9_redundant_calls (s : SysRef) (e : EntRef) (name : string) (w : World) :
  (in_system w s e = O -> System_removeEntity s e w = w)
  /\ (in_cache w e s = O -> Entity_removeSystem e s w = w)
  /\ (Entity.components (ent w e) !! name = None -> Entity_removeComponent e name w = w)
  /\ Entity_removeComponent e name (Entity_removeComponent e name w)
     = Entity_removeComponent e name w
  /\ System.entities (sys (System_addEntity s e w) s) = System.entities (sys w s) ++ [e]
  /\ Entity.systems (ent (System_addEntity s e w) e) = Entity.systems (ent w e) ++ [s].
Proof.
  split; [|split; [|split; [|split; [|split]]]].
  - intros H. apply indexOf_None in H. unfold System_removeEntity. by rewrite H.
  - intros H. apply indexOf_None in H. unfold Entity_removeSystem. by rewrite H.
  - intros H. unfold Entity_removeComponent. by rewrite H.
  - unfold Entity_removeComponent at 2.
    destruct (Entity.components (ent w e) !! name) eqn:E.
    + unfold Entity_removeComponent. rewrite Entity_setSystemsDirty_components. simpl.
      rewrite Nat.eqb_refl. simpl. by rewrite lookup_delete_eq, E.
    + unfold Entity_removeComponent. by rewrite E.
  - simpl. by rewrite Nat.eqb_refl.
  - simpl. by rewrite Nat.eqb_refl.
Qed.

(** A second [System.addEntity] of a member adds a second slot for it. *)
Lemma C9_addEntity_twice_duplicates :
  ~ (forall s e w,
       System.entities (sys (System_addEntity s e (System_addEntity s e w)) s)
       = System.entities (sys (System_addEntity s e w) s)).
Proof. intros H. specialize (H sys_a ent_a fresh_world). discriminate H. Qed.

(** ** Agreement of member lists and caches across the calls *)

Lemma agreement_transfer w w' :
  (forall s, System.entities (sys w' s) = System.entities (sys w s)) ->
  (forall e, Entity.systems (ent w' e) = Entity.systems (ent w e)) ->
  agreement w -> agreement w'.
Proof.
  intros Hs He H s e. specialize (H s e). unfold in_system, in_cache in *.
  by rewrite Hs, He.
Qed.

Lemma Entity_setSystemsDirty_lists x w :
  (forall s, System.entities (sys (Entity_setSystemsDirty x w) s) = System.entities (sys w s))
  /\ (forall e, Entity.systems (ent (Entity_setSystemsDirty x w) e) = Entity.systems (ent w e)).
Proof.
  unfold Entity_setSystemsDirty. destruct (_ && _); simpl; [|done].
  split; [done|]. intros e. by eqb_cases.
Qed.

Lemma Entity_setSystemsDirty_agreement x w :
  agreement w -> agreement (Entity_setSystemsDirty x w).
Proof. apply agreement_transfer; apply Entity_setSystemsDirty_lists. Qed.

Lemma upd_ent_agreement x f w :
  (forall o, Entity.systems (f o) = Entity.systems o) ->
  agreement w -> agreement (upd_ent x f w).
Proof.
  intros Hf. apply agreement_transfer; [done|]. intros e. simpl. eqb_cases; [|done].
  apply Hf.
Qed.

Lemma Entity_removeSystem_length e s w e' :
  (length (Entity.systems (ent (Entity_removeSystem e s w) e'))
   <= length (Entity.systems (ent w e')))%nat.
Proof.
  unfold Entity_removeSystem. destruct (indexOf _ _) as [i|]; simpl; [|done].
  eqb_cases; [|done]. rewrite fastSplice_one, delete_take_drop.
  rewrite length_app, length_take, length_drop. lia.
Qed.

Lemma System_removeEntity_length s e w e' :
  (length (Entity.systems (ent (System_removeEntity s e w) e'))
   <= length (Entity.systems (ent w e')))%nat.
Proof.
  unfold System_removeEntity. destruct (indexOf _ _) as [i|]; simpl; [|done].
  apply Entity_removeSystem_length.
Qed.

(** [Entity.dispose] ends within its budget. *)
Lemma Entity_dispose_total e w : exists w', Entity_dispose e w = Some w'.
Proof.
  unfold Entity_dispose. apply for_of_terminates; [|lia].
  intros s st. eexists. split; [done|]. apply System_removeEntity_length.
Qed.

Lemma Entity_dispose_inv (P : World -> Prop) e w w' :
  (forall s st, P st -> P (System_removeEntity s e st)) ->
  P w -> Entity_dispose e w = Some w' -> P w'.
Proof.
  intros Hstep. unfold Entity_dispose. apply for_of_inv.
  intros s st st' HP [= <-]. by apply Hstep.
Qed.

(** [System.dispose] ends within its budget and leaves every member list,
    its own included, as it was. *)
Lemma System_dispose_members s w :
  exists w', System_dispose s w = Some w'
    /\ (forall s', System.entities (sys w' s') = System.entities (sys w s'))
    /\ ecs w' = ecs w.
Proof.
  unfold System_dispose.
  rewrite (for_of_fold _ _ (fun e w => call (Exit s e) (Entity_removeSystem e s w)));
    [|done|intros; simpl; apply Entity_removeSystem_members|lia].
  eexists. split; [done|]. rewrite drop_0.
  generalize (System.entities (sys w s)) as l. intros l. revert w.
  induction l as [|e l IH]; intros w; simpl; [done|].
  destruct (IH (call (Exit s e) (Entity_removeSystem e s w))) as (Hs & He).
  split.
  - intros s'. rewrite Hs. simpl. apply Entity_removeSystem_members.
  - rewrite He. simpl. unfold Entity_removeSystem. by destruct (indexOf _ _).
Qed.

Lemma ECS_addSystem_closed s w :
  ECS_addSystem s w =
    Some (fold_left
            (fun w e => if System_test s e w then System_addEntity s e w else w)
            (ECS.entities (ecs w))
            (upd_ecs (fun c => set_systemList (ECS.systems c ++ [s]) c) w)).
Proof.
  unfold ECS_addSystem.
  rewrite (for_of_fold _ _
             (fun e w => if System_test s e w then System_addEntity s e w else w)).
  - by rewrite drop_0.
  - intros e st. by destruct (System_test s e st).
  - intros e st. by destruct (System_test s e st).
  - lia.
Qed.

Lemma ECS_removeEntityIfDirty_lists e w :
  (forall s, System.entities (sys (ECS_removeEntityIfDirty e w) s) = System.entities (sys w s))
  /\ (forall e', Entity.systems (ent (ECS_removeEntityIfDirty e w) e') = Entity.systems (ent w e')).
Proof. unfold ECS_removeEntityIfDirty. by destruct (indexOf _ _). Qed.

(** Every call except those that dispose a system ends and keeps the
    member lists and the membership caches in agreement. *)
Theorem agreement_preserved (c : ApiCall) (w : World) :
  disposes_system c = false ->
  agreement w ->
  exists w', exec c w = Some w' /\ agreement w'.
Proof.
  intros Hc H. destruct c; simpl in *; try discriminate Hc.
  - eexists. split; [done|]. by apply Entity_setSystemsDirty_agreement.
  - eexists. split; [done|]. unfold Entity_addComponent.
    by apply Entity_setSystemsDirty_agreement, upd_ent_agreement.
  - eexists. split; [done|]. unfold Entity_removeComponent.
    destruct (_ !! _); [|done].
    by apply Entity_setSystemsDirty_agreement, upd_ent_agreement.
  - eexists. split; [done|].
    destruct (Entity_updateComponent_frame e name data w) as (_ & Hs & _ & He).
    revert H. apply agreement_transfer.
    + intros s. by rewrite Hs.
    + intros e'. by rewrite He.
  - destruct (Entity_dispose_total e w) as (w' & Hw'). exists w'. split; [done|].
    revert Hw'. apply Entity_dispose_inv; [|done].
    intros. by apply System_removeEntity_agreement.
  - eexists. split; [done|]. by apply System_addEntity_agreement.
  - eexists. split; [done|]. by apply System_removeEntity_agreement.
  - eexists. split; [done|]. unfold ECS_addEntity, Entity_addToECS.
    by apply Entity_setSystemsDirty_agreement, upd_ent_agreement.
  - unfold ECS_removeEntity. destruct (indexOf _ _) as [i|]; simpl.
    + destruct (Entity_dispose_total e w) as (w' & Hw'). rewrite Hw'. simpl.
      eexists. split; [done|].
      assert (agreement w') as H'.
      { revert Hw'. apply Entity_dispose_inv; [|done].
        intros. by apply System_removeEntity_agreement. }
      revert H'. apply agreement_transfer; intros; simpl;
        apply ECS_removeEntityIfDirty_lists.
    + by exists w.
  - unfold ECS_removeEntityById. destruct (find_by_id _ _ _ _) as [[i e]|]; simpl.
    + destruct (Entity_dispose_total e w) as (w' & Hw'). rewrite Hw'. simpl.
      eexists. split; [done|].
      assert (agreement w') as H'.
      { revert Hw'. apply Entity_dispose_inv; [|done].
        intros. by apply System_removeEntity_agreement. }
      revert H'. apply agreement_transfer; intros; simpl;
        apply ECS_removeEntityIfDirty_lists.
    + by exists w.
  - rewrite ECS_addSystem_closed. eexists. split; [done|].
    generalize (ECS.entities (ecs w)) as l. intros l.
    assert (agreement (upd_ecs (fun c => set_systemList (ECS.systems c ++ [s]) c) w)) as H0
      by done.
    revert H0. generalize (upd_ecs (fun c => set_systemList (ECS.systems c ++ [s]) c) w).
    induction l as [|e l IH]; intros w1 H1; simpl; [done|].
    apply IH. destruct (System_test s e w1); [|done].
    by apply System_addEntity_agreement.
  - rewrite ECS_cleanDirtyEntities_closed. eexists. split; [done|].
    by apply (clean_all_agreement _ _ w).
  - unfold ECS_update.
    destruct (update_loop (now - ECS.lastUpdate (ecs w)) w
                (S (length (ECS.systems (ecs w)))) O w (same_static_refl w))
      as (w' & k & -> & _ & _ & _ & _ & Hag); [lia|].
    eexists. split; [done|]. by apply Hag.
Qed.

(** Agreement slot for slot gives the agreement on membership: an entity is
    in the member list of a system exactly when the system is in the cache
    of the entity. *)
Lemma agreement_iff w :
  agreement w ->
  forall s e, e ∈ System.entities (sys w s) <-> s ∈ Entity.systems (ent w e).
Proof.
  intros H s e. rewrite <- !occ_elem_of.
  fold (in_system w s e). fold (in_cache w e s). by rewrite H.
Qed.

(** ** The defects, on concrete stores *)

(** A computation that can be seen to return gives [default d] of itself. *)
Lemma Some_default {A : Type} (d : A) (o : option A) :
  match o with Some _ => true | None => false end = true ->
  o = Some (default d o).
Proof. destruct o; [reflexivity|discriminate]. Qed.

Ltac returns_default :=
  apply Some_default; vm_compute; reflexivity.

Ltac observe := vm_compute; reflexivity.

Lemma two_systems_reached : two_systems = Some two_systems_world.
Proof. unfold two_systems_world. returns_default. Qed.

Lemma agreement_fresh_world : agreement fresh_world.
Proof. intros s e. reflexivity. Qed.

Lemma agreement_two_systems_world : agreement two_systems_world.
Proof.
  destruct (agreement_preserved (Api_ECS_addEntity ent_a) fresh_world eq_refl
              agreement_fresh_world) as (w1 & E1 & H1).
  destruct (agreement_preserved (Api_ECS_addSystem sys_a) w1 eq_refl H1)
    as (w2 & E2 & H2).
  destruct (agreement_preserved (Api_ECS_addSystem sys_b) w2 eq_refl H2)
    as (w3 & E3 & H3).
  simpl in E1, E2, E3. injection E1 as <-.
  unfold two_systems_world, two_systems. by rewrite E2, E3.
Qed.

(** C1: after [System.dispose] on a registered system with a member the
    system still lists the entity while the entity no longer lists the
    system; the store before the call is in agreement, the store after it
    is not. *)
Theorem C1_System_dispose_breaks_agreement :
  two_systems = Some two_systems_world
  /\ agreement two_systems_world
  /\ exists w', System_dispose sys_a two_systems_world = Some w'
       /\ ECS.systems (ecs w') = [sys_a; sys_b]
       /\ (ent_a ∈ System.entities (sys w' sys_a))
       /\ (sys_a ∉ Entity.systems (ent w' ent_a))
       /\ ~ agreement w'.
Proof.
  split; [apply two_systems_reached|]. split; [apply agreement_two_systems_world|].
  exists (default fresh_world (System_dispose sys_a two_systems_world)).
  split; [returns_default|]. split; [observe|]. split; [|split].
  - apply occ_elem_of. vm_compute. lia.
  - intros H%occ_elem_of. vm_compute in H. lia.
  - intros H. specialize (H sys_a ent_a). vm_compute in H. discriminate H.
Qed.

Lemma ECS_removeEntity_not_found e w :
  indexOf (ECS.entities (ecs w)) e = None -> ECS_removeEntity e w = Some (None, w).
Proof. intros H. unfold ECS_removeEntity. by rewrite H. Qed.

Lemma ECS_removeEntityById_not_found entityId w :
  find_by_id w (ECS.entities (ecs w)) entityId O = None ->
  ECS_removeEntityById entityId w = Some (None, w).
Proof. intros H. unfold ECS_removeEntityById. by rewrite H. Qed.

(** C4: with entities [a] and [b] added and both still queued,
    [removeEntity(a)] returns [a] but empties the population, [b] included,
    and leaves the dirty queue holding [a]; [removeEntityById] does the
    same. *)
Theorem C4_removeEntity_splices_the_population_twice :
  ECS.entities (ecs two_entities) = [ent_a; ent_b]
  /\ ECS.entitiesSystemsDirty (ecs two_entities) = [ent_a; ent_b]
  /\ (exists w', ECS_removeEntity ent_a two_entities = Some (Some ent_a, w')
        /\ ECS.entities (ecs w') = []
        /\ ECS.entitiesSystemsDirty (ecs w') = [ent_a; ent_b])
  /\ (exists w', ECS_removeEntityById (Entity.id (ent two_entities ent_a)) two_entities
                 = Some (Some ent_a, w')
        /\ ECS.entities (ecs w') = []
        /\ ECS.entitiesSystemsDirty (ecs w') = [ent_a; ent_b]).
Proof.
  split; [reflexivity|]. split; [reflexivity|]. split.
  - exists (default fresh_world (snd <$> ECS_removeEntity ent_a two_entities)).
    split; [|split; observe].
    assert (fst <$> ECS_removeEntity ent_a two_entities = Some (Some ent_a)) as Hr
      by observe.
    destruct (ECS_removeEntity ent_a two_entities) as [[r w']|]; [|discriminate Hr].
    simpl in *. by injection Hr as ->.
  - exists (default fresh_world
              (snd <$> ECS_removeEntityById (Entity.id (ent two_entities ent_a))
                         two_entities)).
    split; [|split; observe].
    assert (fst <$> ECS_removeEntityById (Entity.id (ent two_entities ent_a))
                      two_entities = Some (Some ent_a)) as Hr by observe.
    destruct (ECS_removeEntityById _ _) as [[r w']|]; [|discriminate Hr].
    simpl in *. by injection Hr as ->.
Qed.

(** An entity whose cache holds two systems, the first of which lists it,
    is only taken out of the first: removing it shortens the cache under
    the iterator, which then finds nothing at position 1. *)
Lemma Entity_dispose_two_systems e a b w i :
  Entity.systems (ent w e) = [a; b] ->
  indexOf (System.entities (sys w a)) e = Some i ->
  Entity_dispose e w = Some (System_removeEntity a e w).
Proof.
  intros Hc Hm. unfold Entity_dispose. rewrite Hc. simpl. rewrite Hc. simpl.
  assert (Entity.systems (ent (System_removeEntity a e w) e) = [b]) as ->; [|done].
  unfold System_removeEntity. rewrite Hm. simpl.
  unfold Entity_removeSystem. rewrite Hc. simpl. rewrite Nat.eqb_refl. simpl.
  rewrite Nat.eqb_refl, Hc. reflexivity.
Qed.

(** C5: an entity that belongs to systems [A] and [B] is disposed: [exit]
    is called for [A] only, and the entity is still a member of [B]. *)
Theorem C5_Entity_dispose_skips_second_system :
  two_systems = Some two_systems_world
  /\ Entity.systems (ent two_systems_world ent_a) = [sys_a; sys_b]
  /\ System.entities (sys two_systems_world sys_a) = [ent_a]
  /\ System.entities (sys two_systems_world sys_b) = [ent_a]
  /\ exists w', Entity_dispose ent_a two_systems_world = Some w'
       /\ exits_of ent_a (trace w') = [sys_a]
       /\ Entity.systems (ent w' ent_a) = [sys_b]
       /\ System.entities (sys w' sys_b) = [ent_a].
Proof.
  split; [apply two_systems_reached|].
  split; [observe|]. split; [observe|]. split; [observe|].
  exists (default fresh_world (Entity_dispose ent_a two_systems_world)).
  split; [returns_default|]. repeat split; observe.
Qed.

(** C6: disposing system [A], directly or through [removeSystem], calls
    [exit] for its member and takes [A] out of the member's cache, but the
    member list of [A] still holds the entity. *)
Theorem C6_System_dispose_keeps_member_list :
  System.entities (sys two_systems_world sys_a) = [ent_a]
  /\ (exists w', System_dispose sys_a two_systems_world = Some w'
        /\ exits_of ent_a (trace w') = [sys_a]
        /\ Entity.systems (ent w' ent_a) = [sys_b]
        /\ System.entities (sys w' sys_a) = [ent_a])
  /\ (exists w', ECS_removeSystem sys_a two_systems_world = Some w'
        /\ ECS.systems (ecs w') = [sys_b]
        /\ exits_of ent_a (trace w') = [sys_a]
        /\ Entity.systems (ent w' ent_a) = [sys_b]
        /\ System.entities (sys w' sys_a) = [ent_a]).
Proof.
  split; [observe|]. split.
  - exists (default fresh_world (System_dispose sys_a two_systems_world)).
    split; [returns_default|]. repeat split; observe.
  - exists (default fresh_world (ECS_removeSystem sys_a two_systems_world)).
    split; [returns_default|]. repeat split; observe.
Qed.

(** ** The theorems at concrete stores *)

(** At tick 2 system [B] (frequency 3) comes first and misses its gate, so
    system [A] (frequency 2) does not run although it is due. *)
Example gated_world_tick :
  due gated_world sys_a
  /\ exists w', ECS_update 16 gated_world = Some w' /\ batches (trace w') = [].
Proof.
  split; [by exists 1|].
  exists (default fresh_world (ECS_update 16 gated_world)).
  split; [returns_default|observe].
Qed.

Lemma C2_update_frequency_gate_witness :
  0 <= ECS.updateCounter (ecs gated_world)
  /\ (forall s, s ∈ ECS.systems (ecs gated_world) ->
        System.frequency (sys gated_world s) <> 0)
  /\ exists w' k, ECS_update 16 gated_world = Some w'
       /\ ECS.updateCounter (ecs w') = 3
       /\ batches (trace w') = take k [sys_b; sys_a].
Proof.
  assert (H1 : 0 <= ECS.updateCounter (ecs gated_world)) by (simpl; lia).
  assert (H2 : forall s, s ∈ ECS.systems (ecs gated_world) ->
                 System.frequency (sys gated_world s) <> 0) by (intros s _; simpl; lia).
  split; [exact H1|]. split; [exact H2|].
  destruct (C2_update_frequency_gate 16 gated_world H1 H2) as (w' & k & Hu & Hc & Hb & _).
  exists w', k. split; [exact Hu|]. split; [exact Hc|exact Hb].
Defined.

Lemma agreement_entity_after_system : agreement entity_after_system.
Proof.
  intros s e. unfold in_system, in_cache. simpl. by destruct (e =? ent_a)%nat.
Qed.

Lemma no_duplicates_entity_after_system : no_duplicates entity_after_system.
Proof. intros s e. unfold in_system. simpl. lia. Qed.


Lemma entered_twice_world_reached :
  run_api entered_twice selective_world = Some entered_twice_world.
Proof. unfold entered_twice_world. returns_default. Qed.



Lemma readded_system_world_reached :
  run_api readded_system selective_world = Some readded_system_world.
Proof. unfold readded_system_world. returns_default. Qed.

(** The same on the store that [removeSystem(A); addSystem(A)] leaves,
    reached by calls of the coordinator and of the entity only: the member
    list of [A] holds the entity twice and the cache of the entity holds
    [A] once; after reconciliation the entity, which does not pass the
    predicate, is in no cache and still in the member list of [A]. *)
Lemma readded_system_member_left_after_reconciliation :
  System.entities (sys readded_system_world sys_a) = [ent_a; ent_a]
  /\ Entity.systems (ent readded_system_world ent_a) = [sys_a]
  /\ ECS.entitiesSystemsDirty (ecs readded_system_world) = [ent_a]
  /\ ECS.systems (ecs readded_system_world) = [sys_a]
  /\ System_test sys_a ent_a readded_system_world = false
  /\ exists w', ECS_cleanDirtyEntities readded_system_world = Some w'
       /\ System.entities (sys w' sys_a) = [ent_a]
       /\ Entity.systems (ent w' ent_a) = [].
Proof.
  repeat (split; [observe|]).
  exists (default readded_system_world (ECS_cleanDirtyEntities readded_system_world)).
  split; [returns_default|]. split; observe.
Qed.

Lemma C10_gate_miss_skips_reconciliation_witness :
  ECS.systems (ecs (ECS_addEntity ent_a gated_world)) = [sys_b; sys_a]
  /\ gate_miss sys_b (ECS_addEntity ent_a gated_world) = true
  /\ ECS.entitiesSystemsDirty (ecs (ECS_addEntity ent_a gated_world)) = [ent_a]
  /\ Entity.systemsDirty (ent (ECS_addEntity ent_a gated_world) ent_a) = true
  /\ exists w', ECS_update 16 (ECS_addEntity ent_a gated_world) = Some w'
       /\ ECS.entitiesSystemsDirty (ecs w') = [ent_a]
       /\ Entity.systemsDirty (ent w' ent_a) = true
       /\ trace w' = trace (ECS_addEntity ent_a gated_world)
       /\ ECS.updateCounter (ecs w') = 3.
Proof.
  split; [reflexivity|]. split; [reflexivity|]. split; [reflexivity|].
  split; [reflexivity|].
  destruct (C10_gate_miss_skips_reconciliation 16 (ECS_addEntity ent_a gated_world)
              sys_b [sys_a] eq_refl eq_refl) as (w' & Hu & Hq & Hf & _ & _ & Ht & Hc).
  exists w'. split; [exact Hu|]. split; [exact Hq|]. split; [|split; [exact Ht|exact Hc]].
  exact (proj2 (Hf ent_a (list_elem_of_here _ _) eq_refl)).
Defined.

Lemma C7_enqueued_at_most_once_witness :
  (queued two_entities ent_a
     <= if Entity.systemsDirty (ent two_entities ent_a) then 1 else 0)%nat
  /\ (queued
        (run_calls [Call_setSystemsDirty ent_a;
                    Call_addComponent ent_a "position" position_a;
                    Call_removeComponent ent_a "position"] two_entities) ent_a
      <= 1)%nat.
Proof.
  assert (H : (queued two_entities ent_a
                 <= if Entity.systemsDirty (ent two_entities ent_a) then 1 else 0)%nat)
    by (vm_compute; lia).
  split; [exact H|].
  destruct (C7_enqueued_at_most_once
              [Call_setSystemsDirty ent_a; Call_addComponent ent_a "position" position_a;
               Call_removeComponent ent_a "position"] two_entities ent_a)
    as (added & _ & _ & _ & Hq & _).
  exact (Hq H).
Defined.

Lemma C9_redundant_calls_witness :
  in_system fresh_world sys_a ent_a = O
  /\ System_removeEntity sys_a ent_a fresh_world = fresh_world.
Proof.
  split; [reflexivity|].
  exact (proj1 (C9_redundant_calls sys_a ent_a "position" fresh_world) eq_refl).
Defined.

(** * Further properties *)

(** ** Look-up, population and reconciliation at a tick *)

(** X1: [fastSplice] takes the slots from [startIndex] up to, not including,
    [startIndex + removeCount] out of the array and keeps the others in
    order; with a start past the end or a count of zero it changes nothing,
    and a count reaching past the end is cut to the end. *)
Theorem fastSplice_removes_slice {A : Type} (array : list A) (startIndex removeCount : nat) :
  fastSplice array startIndex removeCount
  = take startIndex array ++ drop (startIndex + removeCount) array.
Proof.
  destruct (decide (startIndex < length array)%nat) as [Hi|Hi].
  - destruct (decide (0 < removeCount)%nat) as [Hr|Hr].
    + by apply fastSplice_take_drop.
    + assert (removeCount = O) as -> by lia.
      unfold fastSplice. rewrite Nat.eqb_refl, orb_true_r.
      by rewrite Nat.add_0_r, take_drop.
  - unfold fastSplice. destruct (Nat.leb_spec (length array) startIndex); [|lia]. simpl.
    rewrite take_ge, drop_ge by lia. by rewrite app_nil_r.
Qed.

Lemma find_by_id_spec w entityId : forall l i k e,
  find_by_id w l entityId i = Some (k, e) ->
  (i <= k)%nat /\ l !! (k - i)%nat = Some e /\ Entity.id (ent w e) = entityId
  /\ forall j e', (j < k - i)%nat -> l !! j = Some e' -> Entity.id (ent w e') <> entityId.
Proof.
  induction l as [|x l IH]; intros i k e; simpl; [done|].
  destruct (Z.eqb_spec (Entity.id (ent w x)) entityId) as [Heq|Hne].
  - intros [= <- <-]. rewrite Nat.sub_diag. repeat split; try done. intros; lia.
  - intros H. destruct (IH _ _ _ H) as (Hle & Hl & Hid & Hfirst).
    split; [lia|]. replace (k - i)%nat with (S (k - S i)) by lia.
    repeat split; try done.
    intros [|j] e' Hj; simpl; [by intros [= <-]|]. apply Hfirst. lia.
Qed.

Lemma find_by_id_None w entityId : forall l i,
  find_by_id w l entityId i = None <->
  forall e, e ∈ l -> Entity.id (ent w e) <> entityId.
Proof.
  induction l as [|x l IH]; intros i; simpl.
  - split; [|done]. by intros _ e ?%elem_of_nil.
  - destruct (Z.eqb_spec (Entity.id (ent w x)) entityId) as [Heq|Hne].
    + split; [done|]. intros H. exfalso. apply (H x); [by left|done].
    + rewrite IH. split.
      * intros H e [->|?]%elem_of_cons; [done|by apply H].
      * intros H e He. apply H. by right.
Qed.

(** X2: [getEntityById] answers with the first entity of the population that
    carries the identifier, and with [undefined] exactly when none does. *)
Theorem ECS_getEntityById_first_match (entityId : Z) (w : World) :
  (forall e, ECS_getEntityById entityId w = Some e ->
     exists k, ECS.entities (ecs w) !! k = Some e
       /\ Entity.id (ent w e) = entityId
       /\ forall j e', (j < k)%nat -> ECS.entities (ecs w) !! j = Some e' ->
            Entity.id (ent w e') <> entityId)
  /\ (ECS_getEntityById entityId w = None <->
        forall e, e ∈ ECS.entities (ecs w) -> Entity.id (ent w e) <> entityId).
Proof.
  unfold ECS_getEntityById. split.
  - intros e. destruct (find_by_id _ _ _ _) as [[k x]|] eqn:E; [|done].
    intros [= ->]. apply find_by_id_spec in E as (_ & Hl & Hid & Hfirst).
    rewrite Nat.sub_0_r in *. by exists k.
  - rewrite <- (find_by_id_None w entityId _ O).
    destruct (find_by_id _ _ _ _) as [[k x]|]; split; done.
Qed.

Lemma find_by_id_ext w w' entityId : forall l i,
  (forall x, Entity.id (ent w' x) = Entity.id (ent w x)) ->
  find_by_id w' l entityId i = find_by_id w l entityId i.
Proof.
  induction l as [|x l IH]; intros i H; simpl; [done|].
  rewrite H. destruct (_ =? _); [done|]. by apply IH.
Qed.

Lemma find_by_id_app w entityId : forall l1 l2 i,
  find_by_id w (l1 ++ l2) entityId i =
    match find_by_id w l1 entityId i with
    | Some r => Some r
    | None => find_by_id w l2 entityId (i + length l1)
    end.
Proof.
  induction l1 as [|x l1 IH]; intros l2 i; simpl.
  - by rewrite Nat.add_0_r.
  - destruct (_ =? _); [done|]. rewrite IH. by rewrite Nat.add_succ_r.
Qed.

Lemma ECS_addEntity_ids e w x :
  Entity.id (ent (ECS_addEntity e w) x) = Entity.id (ent w x).
Proof.
  unfold ECS_addEntity, Entity_addToECS, Entity_setSystemsDirty. simpl.
  rewrite Nat.eqb_refl. simpl. destruct (negb _ && _); simpl; by eqb_cases.
Qed.

Lemma ECS_addEntity_population e w :
  ECS.entities (ecs (ECS_addEntity e w)) = ECS.entities (ecs w) ++ [e].
Proof.
  unfold ECS_addEntity, Entity_addToECS, Entity_setSystemsDirty. simpl.
  by destruct (negb _ && _).
Qed.

(** X3: an entity added to the coordinator is appended to the population and
    can be looked up by its identifier as soon as no entity already there
    carries the same identifier; look-ups of other identifiers answer as
    before. *)
Theorem ECS_addEntity_then_getEntityById (e : EntRef) (w : World) :
  (forall x, x ∈ ECS.entities (ecs w) -> Entity.id (ent w x) <> Entity.id (ent w e)) ->
  ECS.entities (ecs (ECS_addEntity e w)) = ECS.entities (ecs w) ++ [e]
  /\ ECS_getEntityById (Entity.id (ent w e)) (ECS_addEntity e w) = Some e
  /\ forall entityId, entityId <> Entity.id (ent w e) ->
       ECS_getEntityById entityId (ECS_addEntity e w) = ECS_getEntityById entityId w.
Proof.
  intros Hfresh. split; [apply ECS_addEntity_population|].
  unfold ECS_getEntityById. rewrite ECS_addEntity_population.
  split.
  - rewrite (find_by_id_ext w) by apply ECS_addEntity_ids.
    rewrite find_by_id_app.
    rewrite (proj2 (find_by_id_None w _ _ O) Hfresh). simpl.
    by rewrite Z.eqb_refl.
  - intros entityId Hne.
    rewrite (find_by_id_ext w) by apply ECS_addEntity_ids.
    rewrite find_by_id_app. destruct (find_by_id w _ _ _) as [[k x]|]; [done|].
    simpl. by destruct (Z.eqb_spec (Entity.id (ent w e)) entityId).
Qed.

Section BreakLoops.
Context {St A : Type}.

Lemma for_of_break_inv (P : St -> Prop) (arr : St -> list A)
    (body : A -> St -> option (bool * St)) :
  (forall x st b st', P st -> body x st = Some (b, st') -> P st') ->
  forall fuel i st st', P st -> for_of_break fuel arr body i st = Some st' -> P st'.
Proof.
  intros Hbody. induction fuel as [|fuel IH]; intros i st st' HP; simpl; [done|].
  destruct (arr st !! i) as [x|]; [|by intros [= <-]].
  destruct (body x st) as [[[] st1]|] eqn:E; [| |done].
  - intros [= <-]. by eapply Hbody.
  - apply IH. by eapply Hbody.
Qed.

Lemma for_of_break_step (arr : St -> list A)
    (body : A -> St -> option (bool * St)) fuel i st x :
  arr st !! i = Some x ->
  for_of_break (S fuel) arr body i st =
    match body x st with
    | Some (true, st') => Some st'
    | Some (false, st') => for_of_break fuel arr body (S i) st'
    | None => None
    end.
Proof. intros H. simpl. by rewrite H. Qed.
End BreakLoops.

Lemma reconciliation_of_transfer w w1 w2 :
  reconciliation_of w w1 ->
  ent w2 = ent w1 -> sys w2 = sys w1 -> ECS.entitiesSystemsDirty (ecs w2) = [] ->
  reconciliation_of w w2.
Proof.
  intros (Hq & Hf & Hm & Hu & Hag & Hnd) He Hs Hq2.
  unfold reconciliation_of, agreement, no_duplicates, in_system, in_cache in *.
  rewrite He, Hs.
  split; [done|]. split; [exact Hf|]. split; [exact Hm|]. split; [exact Hu|].
  split; [exact Hag|exact Hnd].
Qed.

Lemma cleaned_store_reconciliation w :
  agreement w -> no_duplicates w ->
  reconciliation_of w
    (upd_ecs (set_dirtyQueue [])
       (clean_all (ECS.entitiesSystemsDirty (ecs w)) (ECS.systems (ecs w)) w)).
Proof.
  intros Hag Hnd.
  set (q := ECS.entitiesSystemsDirty (ecs w)). set (sl := ECS.systems (ecs w)).
  assert (H0 : reconciled w w (fun _ _ => False)) by (by repeat split).
  apply (clean_all_reconciled w sl q) in H0.
  destruct H0 as (Hag' & Hnd' & Hst & HD).
  split; [done|]. split.
  { intros e He. simpl. rewrite clean_all_flag. by rewrite bool_decide_eq_true_2. }
  split.
  { intros e s He Hs.
    change (in_system (clean_all q sl w) s e = (if System_test s e w then 1 else 0)%nat
            /\ in_cache (clean_all q sl w) e s = (if System_test s e w then 1 else 0)%nat).
    rewrite <- Hag'. split; apply HD; by right. }
  split.
  { intros e s Hn.
    change (in_system (clean_all q sl w) s e = in_system w s e
            /\ in_cache (clean_all q sl w) e s = in_cache w e s).
    rewrite <- Hag', <- (Hag s e). split; apply HD; tauto. }
  split; [exact Hag'|exact Hnd'].
Qed.

Lemma unqueued_store_reconciliation w :
  agreement w -> no_duplicates w -> ECS.entitiesSystemsDirty (ecs w) = [] ->
  reconciliation_of w w.
Proof.
  intros Hag Hnd Hq. unfold reconciliation_of. rewrite Hq.
  split; [done|]. split; [by intros e ?%elem_of_nil|].
  split; [by intros e s ?%elem_of_nil|]. by repeat split.
Qed.

Lemma update_body_idle elapsed w1 x st b st' :
  ent st = ent w1 /\ sys st = sys w1 /\ ECS.entitiesSystemsDirty (ecs st) = [] ->
  update_body elapsed x st = Some (b, st') ->
  ent st' = ent w1 /\ sys st' = sys w1 /\ ECS.entitiesSystemsDirty (ecs st') = [].
Proof.
  intros (He & Hs & Hq). unfold update_body.
  destruct (gate_miss x st); [by intros [= <- <-]|].
  rewrite Hq. simpl.
  destruct (System_updateAll_closed x elapsed st) as (w2 & -> & He2 & Hs2 & Hc2 & _).
  intros [= <- <-]. rewrite He2, Hs2, Hc2. done.
Qed.

Lemma update_reconciles (now : Z) (w : World) (s : SysRef) (rest : list SysRef) :
  ECS.systems (ecs w) = s :: rest ->
  gate_miss s w = false ->
  agreement w -> no_duplicates w ->
  exists w', ECS_update now w = Some w' /\ reconciliation_of w w'.
Proof.
  intros Hsys Hg Hag Hnd. unfold ECS_update. rewrite Hsys.
  rewrite (for_of_break_step _ _ _ _ _ s) by (by rewrite Hsys).
  unfold update_body at 1. rewrite Hg.
  set (w1o := if (0 <? _)%nat then _ else _).
  assert (exists w1, w1o = Some w1 /\ reconciliation_of w w1 /\ same_static w w1)
    as (w1 & -> & Hr1 & Hst1).
  { subst w1o. destruct (ECS.entitiesSystemsDirty (ecs w)) as [|e q] eqn:Hq.
    - exists w. split; [done|]. split; [|apply same_static_refl].
      by apply unqueued_store_reconciliation.
    - simpl. rewrite ECS_cleanDirtyEntities_closed. eexists. split; [done|].
      split; [rewrite Hq; rewrite <- Hq; by apply cleaned_store_reconciliation|].
      eapply same_static_trans; [apply clean_all_static|]. by repeat split. }
  destruct (System_updateAll_closed s (now - ECS.lastUpdate (ecs w)) w1)
    as (w2 & -> & He2 & Hs2 & Hc2 & _).
  assert (Hst2 : same_static w2 w2) by apply same_static_refl.
  destruct (update_loop (now - ECS.lastUpdate (ecs w)) w2 (length (s :: rest)) 1 w2 Hst2)
    as (w' & k & Hloop & _).
  { rewrite Hc2. destruct Hst1 as (_ & -> & _). rewrite Hsys. simpl. lia. }
  rewrite Hloop. eexists. split; [done|].
  assert (ent w' = ent w2 /\ sys w' = sys w2 /\ ECS.entitiesSystemsDirty (ecs w') = [])
    as (He & Hs & Hq).
  { eapply (for_of_break_inv
              (fun st => ent st = ent w2 /\ sys st = sys w2
                         /\ ECS.entitiesSystemsDirty (ecs st) = []));
      [|  |exact Hloop].
    - intros x st b st'. apply update_body_idle.
    - rewrite Hc2. split; [done|]. split; [done|]. apply Hr1. }
  eapply reconciliation_of_transfer; [exact Hr1| | |]; simpl; congruence.
Qed.

(** X4: from a store whose member lists and caches agree slot for slot and
    hold no entity twice, and with hooks that leave the store alone (they
    mark no entity dirty and change no membership), a tick whose first
    system passes its gate reconciles the whole dirty queue and leaves it
    empty: every entity that was queued is clean and is a member of each
    active system exactly when its predicate holds. *)
Theorem ECS_update_reconciles_queue (now : Z) (w : World)
    (s : SysRef) (rest : list SysRef) :
  ECS.systems (ecs w) = s :: rest ->
  gate_miss s w = false ->
  agreement w -> no_duplicates w ->
  exists w', ECS_update now w = Some w' /\ reconciliation_of w w'.
Proof. apply update_reconciles. Qed.

Lemma marked_then_update (now : Z) (w w0 : World) (e : EntRef)
    (s : SysRef) (rest : list SysRef) :
  sys w0 = sys w ->
  (forall x, Entity.systems (ent w0 x) = Entity.systems (ent w x)) ->
  ECS.systems (ecs w0) = ECS.systems (ecs w) ->
  ECS.updateCounter (ecs w0) = ECS.updateCounter (ecs w) ->
  e ∈ ECS.entitiesSystemsDirty (ecs w0) ->
  ECS.systems (ecs w) = s :: rest ->
  gate_miss s w = false ->
  agreement w -> no_duplicates w ->
  exists w', ECS_update now w0 = Some w'
    /\ ECS.entitiesSystemsDirty (ecs w') = []
    /\ Entity.systemsDirty (ent w' e) = false
    /\ forall s', s' ∈ ECS.systems (ecs w) ->
          in_system w' s' e = (if System_test s' e w0 then 1 else 0)%nat
          /\ in_cache w' e s' = (if System_test s' e w0 then 1 else 0)%nat.
Proof.
  intros Hs He Hsl Hc Hq Hsys Hg Hag Hnd.
  destruct (update_reconciles now w0 s rest) as (w' & Hu & Hq' & Hf & Hm & _).
  - by rewrite Hsl.
  - unfold gate_miss in *. by rewrite Hc, Hs.
  - intros s' x. specialize (Hag s' x). unfold in_system, in_cache in *.
    by rewrite Hs, He.
  - intros s' x. specialize (Hnd s' x). unfold in_system in *. by rewrite Hs.
  - exists w'. split; [done|]. split; [done|]. split; [by apply Hf|].
    intros s' Hs'. apply Hm; [done|]. by rewrite Hsl.
Qed.

Lemma Entity_setSystemsDirty_enqueues e w :
  Entity.ecs (ent w e) = true ->
  Entity.systemsDirty (ent w e) = false ->
  e ∈ ECS.entitiesSystemsDirty (ecs (Entity_setSystemsDirty e w)).
Proof.
  intros Ha Hd. unfold Entity_setSystemsDirty. rewrite Ha, Hd. simpl.
  apply elem_of_app. right. apply list_elem_of_here.
Qed.

Lemma Entity_setSystemsDirty_frame e w :
  sys (Entity_setSystemsDirty e w) = sys w
  /\ ECS.systems (ecs (Entity_setSystemsDirty e w)) = ECS.systems (ecs w)
  /\ ECS.updateCounter (ecs (Entity_setSystemsDirty e w)) = ECS.updateCounter (ecs w)
  /\ ECS.entities (ecs (Entity_setSystemsDirty e w)) = ECS.entities (ecs w)
  /\ trace (Entity_setSystemsDirty e w) = trace w
  /\ forall x, Entity.systems (ent (Entity_setSystemsDirty e w) x) = Entity.systems (ent w x)
         /\ Entity.id (ent (Entity_setSystemsDirty e w) x) = Entity.id (ent w x)
         /\ Entity.components (ent (Entity_setSystemsDirty e w) x) = Entity.components (ent w x)
         /\ Entity.ecs (ent (Entity_setSystemsDirty e w) x) = Entity.ecs (ent w x).
Proof.
  unfold Entity_setSystemsDirty. destruct (negb _ && _); simpl; [|done].
  repeat split; intros; simpl; by eqb_cases.
Qed.

Lemma Entity_setSystemsDirty_comp e w : comp (Entity_setSystemsDirty e w) = comp w.
Proof. unfold Entity_setSystemsDirty. by destruct (negb _ && _). Qed.

(** X5: from a store whose member lists and caches agree slot for slot and
    hold no entity twice, and with hooks that leave the store alone, an
    entity with a clear dirty flag that is added to the coordinator is
    evaluated at the next tick, if the first system passes its gate: after
    that tick it is clean, out of the queue, and a member of each active
    system exactly when the predicate of that system holds for it. *)
Theorem ECS_addEntity_then_update (now : Z) (w : World) (e : EntRef)
    (s : SysRef) (rest : list SysRef) :
  Entity.systemsDirty (ent w e) = false ->
  ECS.systems (ecs w) = s :: rest ->
  gate_miss s w = false ->
  agreement w -> no_duplicates w ->
  exists w', ECS_update now (ECS_addEntity e w) = Some w'
    /\ ECS.entitiesSystemsDirty (ecs w') = []
    /\ Entity.systemsDirty (ent w' e) = false
    /\ forall s', s' ∈ ECS.systems (ecs w) ->
          in_system w' s' e = (if System_test s' e w then 1 else 0)%nat
          /\ in_cache w' e s' = (if System_test s' e w then 1 else 0)%nat.
Proof.
  intros Hd Hsys Hg Hag Hnd.
  set (w1 := upd_ent e (set_ecs true)
               (upd_ecs (fun c => set_population (ECS.entities c ++ [e]) c) w)).
  destruct (Entity_setSystemsDirty_frame e w1) as (F1 & F2 & F3 & _ & _ & F4).
  destruct (marked_then_update now w (ECS_addEntity e w) e s rest)
    as (w' & Hu & Hq & Hf & Hm); try done.
  - intros x. unfold ECS_addEntity, Entity_addToECS. fold w1.
    destruct (F4 x) as (-> & _). subst w1. simpl. by eqb_cases.
  - unfold ECS_addEntity, Entity_addToECS. fold w1.
    apply Entity_setSystemsDirty_enqueues; subst w1; simpl; by rewrite Nat.eqb_refl.
  - exists w'. split; [done|]. split; [done|]. split; [done|].
    intros s' Hs'. destruct (Hm s' Hs') as (H1 & H2).
    assert (System_test s' e (ECS_addEntity e w) = System_test s' e w) as Ht.
    { unfold System_test, components_of, ECS_addEntity, Entity_addToECS. fold w1.
      rewrite F1, Entity_setSystemsDirty_comp.
      destruct (F4 e) as (_ & -> & -> & _). subst w1. simpl.
      by rewrite Nat.eqb_refl. }
    by rewrite <- Ht.
Qed.

(** X6: from a store whose member lists and caches agree slot for slot and
    hold no entity twice, and with hooks that leave the store alone, adding
    a component to an attached, clean entity makes the next tick, if the
    first system passes its gate, re-evaluate it against the new
    components: it ends up a member of each active system exactly when the
    predicate holds with the fields of the component under its name. *)
Theorem Entity_addComponent_then_update (now : Z) (w : World) (e : EntRef)
    (name : string) (component : CompRef) (s : SysRef) (rest : list SysRef) :
  Entity.ecs (ent w e) = true ->
  Entity.systemsDirty (ent w e) = false ->
  ECS.systems (ecs w) = s :: rest ->
  gate_miss s w = false ->
  agreement w -> no_duplicates w ->
  exists w', ECS_update now (Entity_addComponent e name component w) = Some w'
    /\ ECS.entitiesSystemsDirty (ecs w') = []
    /\ Entity.systemsDirty (ent w' e) = false
    /\ forall s', s' ∈ ECS.systems (ecs w) ->
          let eligible :=
            System.test (sys w s') (Entity.id (ent w e))
              (<[name := comp w component]> (components_of w e)) in
          in_system w' s' e = (if eligible then 1 else 0)%nat
          /\ in_cache w' e s' = (if eligible then 1 else 0)%nat.
Proof.
  intros Ha Hd Hsys Hg Hag Hnd.
  set (w1 := upd_ent e (fun o => set_components
                                   (<[name := component]> (Entity.components o)) o) w).
  destruct (Entity_setSystemsDirty_frame e w1) as (F1 & F2 & F3 & _ & _ & F4).
  destruct (marked_then_update now w (Entity_addComponent e name component w) e s rest)
    as (w' & Hu & Hq & Hf & Hm); try done.
  - intros x. unfold Entity_addComponent. fold w1.
    destruct (F4 x) as (-> & _). subst w1. simpl. by eqb_cases.
  - unfold Entity_addComponent. fold w1.
    apply Entity_setSystemsDirty_enqueues; subst w1; simpl; by rewrite Nat.eqb_refl.
  - exists w'. split; [done|]. split; [done|]. split; [done|].
    intros s' Hs'. destruct (Hm s' Hs') as (H1 & H2). simpl.
    assert (System_test s' e (Entity_addComponent e name component w)
            = System.test (sys w s') (Entity.id (ent w e))
                (<[name := comp w component]> (components_of w e))) as Ht.
    { unfold System_test, components_of, Entity_addComponent. fold w1.
      rewrite F1, Entity_setSystemsDirty_comp.
      destruct (F4 e) as (_ & -> & -> & _). subst w1. simpl.
      rewrite Nat.eqb_refl. simpl. by rewrite fmap_insert. }
    by rewrite <- Ht.
Qed.

(** X7: from a store whose member lists and caches agree slot for slot and
    hold no entity twice, and with hooks that leave the store alone,
    removing a component that is present from an attached, clean entity
    makes the next tick, if the first system passes its gate, re-evaluate
    it against the components without that name. *)
Theorem Entity_removeComponent_then_update (now : Z) (w : World) (e : EntRef)
    (name : string) (s : SysRef) (rest : list SysRef) :
  is_Some (Entity.components (ent w e) !! name) ->
  Entity.ecs (ent w e) = true ->
  Entity.systemsDirty (ent w e) = false ->
  ECS.systems (ecs w) = s :: rest ->
  gate_miss s w = false ->
  agreement w -> no_duplicates w ->
  exists w', ECS_update now (Entity_removeComponent e name w) = Some w'
    /\ ECS.entitiesSystemsDirty (ecs w') = []
    /\ Entity.systemsDirty (ent w' e) = false
    /\ forall s', s' ∈ ECS.systems (ecs w) ->
          let eligible :=
            System.test (sys w s') (Entity.id (ent w e))
              (delete name (components_of w e)) in
          in_system w' s' e = (if eligible then 1 else 0)%nat
          /\ in_cache w' e s' = (if eligible then 1 else 0)%nat.
Proof.
  intros [c Hc] Ha Hd Hsys Hg Hag Hnd.
  set (w1 := upd_ent e (fun o => set_components
                                   (delete name (Entity.components o)) o) w).
  assert (Entity_removeComponent e name w = Entity_setSystemsDirty e w1) as Hrc.
  { unfold Entity_removeComponent. by rewrite Hc. }
  destruct (Entity_setSystemsDirty_frame e w1) as (F1 & F2 & F3 & _ & _ & F4).
  destruct (marked_then_update now w (Entity_removeComponent e name w) e s rest)
    as (w' & Hu & Hq & Hf & Hm); try done; try (by rewrite Hrc).
  - intros x. rewrite Hrc.
    destruct (F4 x) as (-> & _). subst w1. simpl. by eqb_cases.
  - rewrite Hrc.
    apply Entity_setSystemsDirty_enqueues; subst w1; simpl; by rewrite Nat.eqb_refl.
  - exists w'. split; [done|]. split; [done|]. split; [done|].
    intros s' Hs'. destruct (Hm s' Hs') as (H1 & H2). simpl.
    assert (System_test s' e (Entity_removeComponent e name w)
            = System.test (sys w s') (Entity.id (ent w e))
                (delete name (components_of w e))) as Ht.
    { rewrite Hrc. unfold System_test, components_of.
      rewrite F1, Entity_setSystemsDirty_comp.
      destruct (F4 e) as (_ & -> & -> & _). subst w1. simpl.
      rewrite Nat.eqb_refl. simpl. by rewrite fmap_delete. }
    by rewrite <- Ht.
Qed.

Lemma System_addEntity_effect s e w :
  ecs (System_addEntity s e w) = ecs w
  /\ System.entities (sys (System_addEntity s e w) s) = System.entities (sys w s) ++ [e]
  /\ (forall s', s' <> s ->
        System.entities (sys (System_addEntity s e w) s') = System.entities (sys w s'))
  /\ Entity.systems (ent (System_addEntity s e w) e) = Entity.systems (ent w e) ++ [s]
  /\ (forall x, x <> e ->
        Entity.systems (ent (System_addEntity s e w) x) = Entity.systems (ent w x))
  /\ trace (System_addEntity s e w) = trace w ++ [Enter s e].
Proof.
  unfold System_addEntity. simpl. rewrite !Nat.eqb_refl.
  repeat split; try done; intros; simpl; by eqb_cases.
Qed.

Lemma backfill_fold s : forall l w1,
  let eligible := List.filter (fun e => System_test s e w1) l in
  let w' := fold_left
              (fun w e => if System_test s e w then System_addEntity s e w else w)
              l w1 in
  ecs w' = ecs w1
  /\ System.entities (sys w' s) = System.entities (sys w1 s) ++ eligible
  /\ (forall s', s' <> s -> System.entities (sys w' s') = System.entities (sys w1 s'))
  /\ (forall x, Entity.systems (ent w' x)
                = Entity.systems (ent w1 x) ++ replicate (occ x eligible) s)
  /\ trace w' = trace w1 ++ map (Enter s) eligible
  /\ same_static w1 w'
  /\ (forall x, Entity.systemsDirty (ent w' x) = Entity.systemsDirty (ent w1 x)).
Proof.
  induction l as [|e l IH]; intros w1; simpl.
  - rewrite !app_nil_r. repeat split; try done. intros x. by rewrite app_nil_r.
  - set (w2 := if System_test s e w1 then System_addEntity s e w1 else w1).
    assert (Hst : same_static w1 w2
                  /\ (forall x, Entity.systemsDirty (ent w2 x) = Entity.systemsDirty (ent w1 x))).
    { subst w2. destruct (System_test s e w1).
      - destruct (System_addEntity_static s e w1) as (? & _ & ?). done.
      - split; [apply same_static_refl|done]. }
    destruct Hst as (Hst & Hfl).
    assert (Hfilter : List.filter (fun x => System_test s x w2) l
                      = List.filter (fun x => System_test s x w1) l).
    { apply List.filter_ext. intros x. by apply same_static_test. }
    destruct (IH w2) as (I1 & I2 & I3 & I4 & I5 & I6 & I7).
    rewrite Hfilter in I2, I4, I5.
    fold w2. fold w2 in I1, I2, I3, I4, I5, I6, I7.
    subst w2. destruct (System_test s e w1) eqn:Ht.
    + destruct (System_addEntity_effect s e w1) as (E1 & E2 & E3 & E4 & E5 & E6).
      split; [congruence|]. split; [by rewrite I2, E2, <- app_assoc|].
      split; [intros s' Hs'; rewrite I3 by done; by apply E3|].
      split.
      { intros x. rewrite I4. cbn [occ].
        destruct (Nat.eqb_spec e x) as [->|Hne]; cbn [Nat.add replicate].
        - rewrite E4, <- app_assoc. done.
        - by rewrite E5. }
      split; [rewrite I5, E6, <- app_assoc; done|].
      split; [by eapply same_static_trans|].
      intros x. by rewrite I7.
    + repeat split; try done; apply I6.
Qed.

(** X8: [addSystem] registers the system at the end of the systems list and
    at once admits, in population order, every entity of the population
    that passes its predicate, calling [enter] for each; it touches no
    other system, no dirty flag and not the dirty queue. *)
Theorem ECS_addSystem_backfill (s : SysRef) (w : World) :
  let eligible := List.filter (fun e => System_test s e w) (ECS.entities (ecs w)) in
  exists w', ECS_addSystem s w = Some w'
    /\ ECS.systems (ecs w') = ECS.systems (ecs w) ++ [s]
    /\ System.entities (sys w' s) = System.entities (sys w s) ++ eligible
    /\ (forall x, Entity.systems (ent w' x)
                  = Entity.systems (ent w x) ++ replicate (occ x eligible) s)
    /\ trace w' = trace w ++ map (Enter s) eligible
    /\ (forall s', s' <> s -> System.entities (sys w' s') = System.entities (sys w s'))
    /\ ECS.entities (ecs w') = ECS.entities (ecs w)
    /\ ECS.entitiesSystemsDirty (ecs w') = ECS.entitiesSystemsDirty (ecs w)
    /\ (forall x, Entity.systemsDirty (ent w' x) = Entity.systemsDirty (ent w x)).
Proof.
  intros eligible. rewrite ECS_addSystem_closed. eexists. split; [done|].
  destruct (backfill_fold s (ECS.entities (ecs w))
              (upd_ecs (fun c => set_systemList (ECS.systems c ++ [s]) c) w))
    as (I1 & I2 & I3 & I4 & I5 & I6 & I7).
  rewrite I1. simpl. repeat split; try done.
Qed.

Lemma dispose_fold s : forall l w1,
  let w' := fold_left (fun w e => call (Exit s e) (Entity_removeSystem e s w)) l w1 in
  ecs w' = ecs w1
  /\ sys w' = sys w1
  /\ trace w' = trace w1 ++ map (Exit s) l
  /\ (forall e s', in_cache w' e s'
                   = (in_cache w1 e s' - if (s' =? s)%nat then occ e l else 0)%nat)
  /\ (forall x, Entity.systemsDirty (ent w' x) = Entity.systemsDirty (ent w1 x)
                /\ Entity.id (ent w' x) = Entity.id (ent w1 x)
                /\ Entity.ecs (ent w' x) = Entity.ecs (ent w1 x)
                /\ Entity.components (ent w' x) = Entity.components (ent w1 x)).
Proof.
  induction l as [|e l IH]; intros w1; simpl.
  - rewrite app_nil_r. repeat split; try done. intros e s'.
    destruct (s' =? s)%nat; lia.
  - destruct (IH (call (Exit s e) (Entity_removeSystem e s w1)))
      as (I1 & I2 & I3 & I4 & I5).
    destruct (Entity_removeSystem_static e s w1)
      as ((_ & _ & _ & _ & S5 & _) & Sq & Sd & St).
    rewrite I1, I2, I3. simpl.
    split; [unfold Entity_removeSystem; by destruct (indexOf _ _)|].
    split; [unfold Entity_removeSystem; by destruct (indexOf _ _)|].
    split; [rewrite St, <- app_assoc; done|].
    split.
    + intros x s'. rewrite I4.
      change (in_cache (call (Exit s e) (Entity_removeSystem e s w1)) x s')
        with (in_cache (Entity_removeSystem e s w1) x s').
      rewrite Entity_removeSystem_cache. unfold delta.
      destruct (Nat.eqb_spec s' s) as [->|]; simpl; [|lia].
      rewrite (Nat.eqb_sym x e). destruct (e =? x)%nat; simpl; lia.
    + intros x. destruct (I5 x) as (-> & -> & -> & ->). simpl.
      rewrite Sd. destruct (S5 x) as (-> & -> & ->). done.
Qed.

Lemma System_dispose_closed s w :
  System_dispose s w =
    Some (fold_left (fun w e => call (Exit s e) (Entity_removeSystem e s w))
            (System.entities (sys w s)) w).
Proof.
  unfold System_dispose.
  rewrite (for_of_fold _ _ (fun e w => call (Exit s e) (Entity_removeSystem e s w)));
    [|done|intros; simpl; apply Entity_removeSystem_members|lia].
  by rewrite drop_0.
Qed.

(** X9: [System.dispose] calls [exit] for every slot of the member list, in
    list order, and takes one slot for the system out of the cache of the
    entity for each; the member lists, the coordinator and the dirty flags
    are left as they were.  From a store in agreement no cache holds the
    system afterwards. *)
Theorem System_dispose_exits_members (s : SysRef) (w : World) :
  exists w', System_dispose s w = Some w'
    /\ trace w' = trace w ++ map (Exit s) (System.entities (sys w s))
    /\ (forall e s', in_cache w' e s'
          = (in_cache w e s' - if (s' =? s)%nat then in_system w s e else 0)%nat)
    /\ (agreement w -> forall e, s ∉ Entity.systems (ent w' e))
    /\ sys w' = sys w /\ ecs w' = ecs w
    /\ (forall e, Entity.systemsDirty (ent w' e) = Entity.systemsDirty (ent w e)).
Proof.
  rewrite System_dispose_closed. eexists. split; [done|].
  destruct (dispose_fold s (System.entities (sys w s)) w) as (I1 & I2 & I3 & I4 & I5).
  split; [done|]. split; [exact I4|]. split.
  - intros Hag e. rewrite <- occ_elem_of.
    change (~ (0 < in_cache (fold_left
                 (fun w e => call (Exit s e) (Entity_removeSystem e s w))
                 (System.entities (sys w s)) w) e s)%nat).
    rewrite I4, Nat.eqb_refl. fold (in_system w s e). rewrite Hag. lia.
  - split; [done|]. split; [done|]. intros e. apply I5.
Qed.

Lemma occ_delete_self x (l : list nat) i :
  indexOf l x = Some i -> occ x (delete i l) = (occ x l - 1)%nat.
Proof.
  intros H. rewrite (occ_delete x x l i (indexOf_Some _ _ _ H)).
  by rewrite Nat.eqb_refl.
Qed.

Lemma ECS_removeSystem_registered (s : SysRef) (w : World) (i : nat) :
  indexOf (ECS.systems (ecs w)) s = Some i ->
  exists w', ECS_removeSystem s w = Some w'
    /\ ECS.systems (ecs w') = delete i (ECS.systems (ecs w))
    /\ occ s (ECS.systems (ecs w')) = (occ s (ECS.systems (ecs w)) - 1)%nat
    /\ trace w' = trace w ++ map (Exit s) (System.entities (sys w s))
    /\ (agreement w -> forall e, s ∉ Entity.systems (ent w' e))
    /\ ECS.entities (ecs w') = ECS.entities (ecs w)
    /\ ECS.entitiesSystemsDirty (ecs w') = ECS.entitiesSystemsDirty (ecs w).
Proof.
  unfold ECS_removeSystem. intros Hi. rewrite Hi.
  set (w1 := upd_ecs (fun c => set_systemList (fastSplice (ECS.systems c) i 1) c) w).
  rewrite System_dispose_closed. eexists. split; [done|].
  destruct (dispose_fold s (System.entities (sys w1 s)) w1) as (I1 & I2 & I3 & I4 & I5).
  rewrite I1. subst w1. simpl. rewrite fastSplice_one.
  split; [done|]. split; [by apply occ_delete_self|]. split; [done|].
  split; [|done].
  intros Hag e. rewrite <- occ_elem_of.
  match goal with |- ~ (0 < occ s (Entity.systems (ent ?W e)))%nat =>
    change (~ (0 < in_cache W e s)%nat) end.
  rewrite I4, Nat.eqb_refl. simpl.
  change (in_cache (upd_ecs _ w) e s) with (in_cache w e s).
  fold (in_system w s e). rewrite Hag. lia.
Qed.

(** X10: [removeSystem] does nothing for a system that is not registered; for
    a registered one it takes the first slot for it out of the systems list
    and disposes it, calling [exit] for each of its members. *)
Theorem ECS_removeSystem_effect (s : SysRef) (w : World) :
  (indexOf (ECS.systems (ecs w)) s = None -> ECS_removeSystem s w = Some w)
  /\ (forall i, indexOf (ECS.systems (ecs w)) s = Some i ->
        exists w', ECS_removeSystem s w = Some w'
          /\ ECS.systems (ecs w') = delete i (ECS.systems (ecs w))
          /\ occ s (ECS.systems (ecs w')) = (occ s (ECS.systems (ecs w)) - 1)%nat
          /\ trace w' = trace w ++ map (Exit s) (System.entities (sys w s))
          /\ (agreement w -> forall e, s ∉ Entity.systems (ent w' e))
          /\ ECS.entities (ecs w') = ECS.entities (ecs w)
          /\ ECS.entitiesSystemsDirty (ecs w') = ECS.entitiesSystemsDirty (ecs w)).
Proof.
  split.
  - unfold ECS_removeSystem. by intros ->.
  - apply ECS_removeSystem_registered.
Qed.

(** X11: a system that was registered once and is removed is not run by the
    next tick. *)
Theorem ECS_removeSystem_then_update (now : Z) (s : SysRef) (w : World) :
  occ s (ECS.systems (ecs w)) = 1%nat ->
  exists w1 w2 ran,
    ECS_removeSystem s w = Some w1
    /\ ECS_update now w1 = Some w2
    /\ batches (trace w2) = batches (trace w1) ++ ran
    /\ s ∉ ran.
Proof.
  intros Hocc.
  destruct (indexOf_is_Some (ECS.systems (ecs w)) s) as (i & Hi); [lia|].
  destruct (ECS_removeSystem_registered s w i Hi) as (w1 & Hr & Hsys & Ho & _).
  exists w1. unfold ECS_update.
  destruct (update_loop (now - ECS.lastUpdate (ecs w1)) w1
              (S (length (ECS.systems (ecs w1)))) O w1 (same_static_refl w1))
    as (w' & k & -> & _ & Hb & _); [lia|].
  eexists. exists (take k (ECS.systems (ecs w1))).
  split; [done|]. split; [done|]. split; [by rewrite drop_0 in Hb|].
  intros Hin. apply elem_of_take in Hin as (j & Hj & _).
  apply list_elem_of_lookup_2, occ_elem_of in Hj. lia.
Qed.

Lemma indexOf_app_fresh (l1 l2 : list nat) x :
  x ∉ l1 -> indexOf (l1 ++ x :: l2) x = Some (length l1).
Proof.
  induction l1 as [|y l1 IH]; intros Hx; simpl.
  - by rewrite Nat.eqb_refl.
  - destruct (Nat.eqb_spec y x) as [->|Hne].
    + exfalso. apply Hx. by left.
    + rewrite IH; [done|]. intros ?. apply Hx. by right.
Qed.

Lemma delete_middle {A} (l1 l2 : list A) x :
  delete (length l1) (l1 ++ x :: l2) = l1 ++ l2.
Proof. induction l1 as [|y l1 IH]; simpl; [done|]. by rewrite IH. Qed.

Lemma System_removeEntity_member s e w kept rest :
  Entity.systems (ent w e) = kept ++ s :: rest ->
  s ∉ kept ->
  (0 < in_system w s e)%nat ->
  Entity.systems (ent (System_removeEntity s e w) e) = kept ++ rest
  /\ trace (System_removeEntity s e w) = trace w ++ [Exit s e].
Proof.
  intros Hc Hs Hm. unfold System_removeEntity.
  destruct (indexOf_is_Some _ _ Hm) as (i & ->). simpl.
  unfold Entity_removeSystem. rewrite Hc, (indexOf_app_fresh _ _ _ Hs). simpl.
  rewrite Nat.eqb_refl. simpl. by rewrite Hc, fastSplice_one, delete_middle.
Qed.

Lemma Entity_dispose_loop e : forall fuel kept rest st,
  Entity.systems (ent st e) = kept ++ rest ->
  NoDup (kept ++ rest) ->
  (forall s, s ∈ rest -> (0 < in_system st s e)%nat) ->
  (length rest < fuel)%nat ->
  exists st',
    for_of fuel (fun w => Entity.systems (ent w e))
      (fun system w => Some (System_removeEntity system e w)) (length kept) st
    = Some st'
    /\ Entity.systems (ent st' e) = kept ++ dispose_skips rest
    /\ trace st' = trace st ++ map (fun s => Exit s e) (dispose_visits rest)
    /\ (forall s x, in_system st' s x
          = (in_system st s x - if (x =? e)%nat then occ s (dispose_visits rest) else 0)%nat)
    /\ ecs st' = ecs st.
Proof.
  induction fuel as [|fuel IH]; intros kept rest st Hc Hnd Hm Hlen; [lia|].
  simpl. rewrite Hc.
  destruct rest as [|s rest].
  { rewrite app_nil_r, lookup_ge_None_2 by lia. exists st. simpl.
    rewrite !app_nil_r. rewrite app_nil_r in Hc. split; [done|]. split; [done|]. split; [done|].
    split; [|done]. intros s x. destruct (x =? e)%nat; lia. }
  rewrite lookup_app_r, Nat.sub_diag by lia. simpl.
  assert (Hs : s ∉ kept).
  { apply NoDup_app in Hnd as (_ & Hd & _). intros Hin. apply (Hd s Hin). by left. }
  destruct (System_removeEntity_member s e st kept rest Hc Hs) as (Hc1 & Ht1).
  { apply Hm. by left. }
  set (st1 := System_removeEntity s e st) in *.
  assert (He1 : ecs st1 = ecs st).
  { subst st1. unfold System_removeEntity, Entity_removeSystem.
    repeat case_match; done. }
  assert (Hin1 : forall s' x, in_system st1 s' x = (in_system st s' x - delta s s' e x)%nat)
    by (intros; apply System_removeEntity_in_system).
  destruct rest as [|t rest].
  { destruct fuel as [|fuel]; [simpl in Hlen; lia|]. simpl.
    rewrite app_nil_r in *. rewrite Hc1, lookup_ge_None_2 by lia.
    exists st1. split; [done|]. split; [done|]. split; [done|].
    split; [|done]. intros s' x. rewrite Hin1. unfold delta. simpl.
    rewrite (Nat.eqb_sym s s').
    destruct (s' =? s)%nat, (x =? e)%nat; simpl; lia. }
  destruct (IH (kept ++ [t]) rest st1) as (st' & Hloop & Hc' & Ht' & Hin' & He').
  { by rewrite Hc1, <- app_assoc. }
  { rewrite <- app_assoc. simpl. apply NoDup_app in Hnd as (H1 & H2 & H3).
    apply NoDup_app. split; [done|]. split.
    - intros y Hy Hy'. apply (H2 y Hy). by right.
    - by apply NoDup_cons in H3 as (_ & ?). }
  { intros s' Hs'. rewrite Hin1. unfold delta.
    assert (s' <> s).
    { intros ->. apply NoDup_app in Hnd as (_ & _ & H3).
      apply NoDup_cons in H3 as (H3 & _). apply H3. by right. }
    destruct (Nat.eqb_spec s' s); [done|]. simpl.
    assert (0 < in_system st s' e)%nat; [|lia]. apply Hm. right. by right. }
  { simpl in Hlen. lia. }
  rewrite length_app in Hloop. simpl in Hloop. rewrite Nat.add_1_r in Hloop.
  exists st'. split; [exact Hloop|]. simpl.
  split; [by rewrite Hc', <- app_assoc|].
  split; [by rewrite Ht', Ht1, <- app_assoc|].
  split; [|congruence].
  intros s' x. rewrite Hin', Hin1. unfold delta. rewrite (Nat.eqb_sym s s').
  destruct (s' =? s)%nat, (x =? e)%nat; simpl; lia.
Qed.

(** X12: [Entity.dispose] on an entity whose cache holds no system twice and
    that every cached system lists: it leaves the systems at positions 0,
    2, 4, ... of the cache (calling [exit] for each, in order) and stays a
    member of those at positions 1, 3, 5, ...; so it is fully disposed
    exactly when it belonged to at most one system. *)
Theorem Entity_dispose_every_other_system (e : EntRef) (w : World) :
  NoDup (Entity.systems (ent w e)) ->
  (forall s, s ∈ Entity.systems (ent w e) -> e ∈ System.entities (sys w s)) ->
  exists w', Entity_dispose e w = Some w'
    /\ Entity.systems (ent w' e) = dispose_skips (Entity.systems (ent w e))
    /\ trace w' = trace w
                  ++ map (fun s => Exit s e) (dispose_visits (Entity.systems (ent w e)))
    /\ (forall s x, in_system w' s x
          = (in_system w s x
             - if (x =? e)%nat then occ s (dispose_visits (Entity.systems (ent w e)))
               else 0)%nat)
    /\ ecs w' = ecs w.
Proof.
  intros Hnd Hm. unfold Entity_dispose.
  apply (Entity_dispose_loop e _ [] (Entity.systems (ent w e)) w); try done.
  - intros s Hs. apply occ_elem_of. by apply Hm.
  - lia.
Qed.

Lemma Entity_dispose_ecs e w w' : Entity_dispose e w = Some w' -> ecs w' = ecs w.
Proof.
  apply (Entity_dispose_inv (fun st => ecs st = ecs w)); [|done].
  intros s st <-. unfold System_removeEntity, Entity_removeSystem.
  repeat case_match; done.
Qed.

(** X13: [removeEntity] of an entity that is in the population and not in the
    dirty queue disposes it, takes its first slot out of the population,
    leaves the queue alone and returns the entity; [removeEntity] and
    [removeEntityById] of something that is not in the population change
    nothing and return [undefined]. *)
Theorem ECS_removeEntity_outside_queue (e : EntRef) (w : World) :
  (forall i, indexOf (ECS.entities (ecs w)) e = Some i ->
     indexOf (ECS.entitiesSystemsDirty (ecs w)) e = None ->
     exists w1 w', Entity_dispose e w = Some w1
       /\ ECS_removeEntity e w = Some (Some e, w')
       /\ ECS.entities (ecs w') = delete i (ECS.entities (ecs w))
       /\ ECS.entitiesSystemsDirty (ecs w') = ECS.entitiesSystemsDirty (ecs w)
       /\ ent w' = ent w1 /\ sys w' = sys w1 /\ trace w' = trace w1)
  /\ (indexOf (ECS.entities (ecs w)) e = None -> ECS_removeEntity e w = Some (None, w))
  /\ (forall entityId,
        (forall x, x ∈ ECS.entities (ecs w) -> Entity.id (ent w x) <> entityId) ->
        ECS_removeEntityById entityId w = Some (None, w)).
Proof.
  split; [|split].
  - intros i Hi Hq. destruct (Entity_dispose_total e w) as (w1 & Hd).
    pose proof (Entity_dispose_ecs e w w1 Hd) as Hecs.
    exists w1. unfold ECS_removeEntity. rewrite Hi. cbv zeta.
    eexists. split; [exact Hd|].
    assert (default e (ECS.entities (ecs w) !! i) = e) as ->.
    { pose proof (indexOf_Some _ _ _ Hi) as Hl. unfold EntRef in *. by rewrite Hl. }
    rewrite Hd.
    unfold ECS_removeEntityIfDirty. rewrite Hecs, Hq.
    split; [done|]. simpl. rewrite Hecs, fastSplice_one. done.
  - intros H. unfold ECS_removeEntity. by rewrite H.
  - intros entityId H. unfold ECS_removeEntityById.
    by rewrite (proj2 (find_by_id_None w entityId _ O) H).
Qed.

(** ** The dirty queue and the dirty flags *)

Lemma queue_coherent_transfer w w' :
  ECS.entitiesSystemsDirty (ecs w') = ECS.entitiesSystemsDirty (ecs w) ->
  (forall x, Entity.systemsDirty (ent w' x) = Entity.systemsDirty (ent w x)) ->
  queue_coherent w -> queue_coherent w'.
Proof.
  intros Hq Hf (Hnd & Hiff). unfold queue_coherent. rewrite Hq.
  split; [done|]. intros x. rewrite Hf. apply Hiff.
Qed.

Lemma Entity_setSystemsDirty_coherent e w :
  queue_coherent w -> queue_coherent (Entity_setSystemsDirty e w).
Proof.
  intros (Hnd & Hiff). unfold Entity_setSystemsDirty.
  destruct (Entity.systemsDirty (ent w e)) eqn:Hd; simpl; [done|].
  destruct (Entity.ecs (ent w e)); simpl; [|done].
  assert (e ∉ ECS.entitiesSystemsDirty (ecs w)) as Hnotin.
  { intros Hin. apply Hiff in Hin. congruence. }
  split; simpl.
  - apply NoDup_app. split; [done|]. split; [|apply NoDup_singleton].
    intros x Hx ->%list_elem_of_singleton. done.
  - intros x. rewrite elem_of_app, list_elem_of_singleton.
    destruct (Nat.eqb_spec x e) as [->|Hne]; simpl.
    + split; [by right|done].
    + rewrite Hiff. split; [by left|]. intros [?|?]; done.
Qed.

Lemma upd_ent_coherent x f w :
  (forall o, Entity.systemsDirty (f o) = Entity.systemsDirty o) ->
  queue_coherent w -> queue_coherent (upd_ent x f w).
Proof.
  intros Hf. apply queue_coherent_transfer; [done|]. intros y. simpl.
  eqb_cases; [apply Hf|done].
Qed.

Lemma clean_all_coherent w :
  queue_coherent w ->
  queue_coherent
    (upd_ecs (set_dirtyQueue [])
       (clean_all (ECS.entitiesSystemsDirty (ecs w)) (ECS.systems (ecs w)) w)).
Proof.
  intros (Hnd & Hiff). split; simpl; [apply NoDup_nil_2|].
  intros x. rewrite clean_all_flag.
  destruct (bool_decide (x ∈ ECS.entitiesSystemsDirty (ecs w))) eqn:E.
  - split; [done|]. by intros ?%elem_of_nil.
  - apply bool_decide_eq_false in E. rewrite Hiff.
    split; [done|]. by intros ?%elem_of_nil.
Qed.

Lemma update_body_coherent elapsed x st b st' :
  queue_coherent st -> update_body elapsed x st = Some (b, st') -> queue_coherent st'.
Proof.
  intros Hc. unfold update_body. destruct (gate_miss x st); [by intros [= <- <-]|].
  set (w1o := if (0 <? _)%nat then _ else _).
  assert (exists w1, w1o = Some w1 /\ queue_coherent w1) as (w1 & -> & Hc1).
  { subst w1o. destruct (0 <? _)%nat; [|by exists st].
    rewrite ECS_cleanDirtyEntities_closed. eexists. split; [done|].
    by apply clean_all_coherent. }
  destruct (System_updateAll_closed x elapsed w1) as (w2 & -> & He2 & Hs2 & Hc2 & _).
  intros [= <- <-]. revert Hc1. apply queue_coherent_transfer; by rewrite ?He2, ?Hc2.
Qed.

(** X14: every call keeps the dirty queue free of repetitions and holding
    exactly the entities whose dirty flag is set. *)
Theorem queue_coherent_preserved (c : ApiCall) (w : World) :
  queue_coherent w ->
  exists w', exec c w = Some w' /\ queue_coherent w'.
Proof.
  intros H. destruct c; simpl.
  - eexists. split; [done|]. by apply Entity_setSystemsDirty_coherent.
  - eexists. split; [done|]. unfold Entity_addComponent.
    by apply Entity_setSystemsDirty_coherent, upd_ent_coherent.
  - eexists. split; [done|]. unfold Entity_removeComponent.
    destruct (_ !! _); [|done].
    by apply Entity_setSystemsDirty_coherent, upd_ent_coherent.
  - eexists. split; [done|].
    destruct (Entity_updateComponent_frame e name data w) as (Hc & _ & _ & He).
    revert H. apply queue_coherent_transfer.
    + by rewrite Hc.
    + intros x. by rewrite He.
  - destruct (Entity_dispose_total e w) as (w' & Hw'). exists w'. split; [done|].
    revert Hw'. apply Entity_dispose_inv; [|done].
    intros s st. apply queue_coherent_transfer; apply System_removeEntity_static.
  - eexists. split; [done|]. revert H.
    apply queue_coherent_transfer; apply System_addEntity_static.
  - eexists. split; [done|]. revert H.
    apply queue_coherent_transfer; apply System_removeEntity_static.
  - rewrite System_dispose_closed. eexists. split; [done|].
    destruct (dispose_fold s (System.entities (sys w s)) w) as (I1 & _ & _ & _ & I5).
    revert H. apply queue_coherent_transfer; [by rewrite I1|]. intros x. apply I5.
  - eexists. split; [done|]. unfold ECS_addEntity, Entity_addToECS.
    apply Entity_setSystemsDirty_coherent, upd_ent_coherent; [done|].
    revert H. by apply queue_coherent_transfer.
  - unfold ECS_removeEntity. destruct (indexOf _ _) as [i|]; simpl; [|by exists w].
    destruct (Entity_dispose_total e w) as (w' & Hw'). rewrite Hw'. simpl.
    eexists. split; [done|].
    assert (queue_coherent w') as H'.
    { revert Hw'. apply Entity_dispose_inv; [|done].
      intros s st. apply queue_coherent_transfer; apply System_removeEntity_static. }
    revert H'. apply queue_coherent_transfer; simpl;
      unfold ECS_removeEntityIfDirty; by destruct (indexOf _ _).
  - unfold ECS_removeEntityById. destruct (find_by_id _ _ _ _) as [[i e]|]; simpl;
      [|by exists w].
    destruct (Entity_dispose_total e w) as (w' & Hw'). rewrite Hw'. simpl.
    eexists. split; [done|].
    assert (queue_coherent w') as H'.
    { revert Hw'. apply Entity_dispose_inv; [|done].
      intros s st. apply queue_coherent_transfer; apply System_removeEntity_static. }
    revert H'. apply queue_coherent_transfer; simpl;
      unfold ECS_removeEntityIfDirty; by destruct (indexOf _ _).
  - rewrite ECS_addSystem_closed. eexists. split; [done|].
    destruct (backfill_fold s (ECS.entities (ecs w))
                (upd_ecs (fun c => set_systemList (ECS.systems c ++ [s]) c) w))
      as (I1 & _ & _ & _ & _ & _ & I7).
    revert H. apply queue_coherent_transfer; [by rewrite I1|]. intros x. apply I7.
  - unfold ECS_removeSystem. destruct (indexOf _ _) as [i|]; [|by exists w].
    rewrite System_dispose_closed. eexists. split; [done|].
    match goal with |- queue_coherent (fold_left _ ?l ?w1) =>
      destruct (dispose_fold s l w1) as (I1 & _ & _ & _ & I5) end.
    revert H. apply queue_coherent_transfer; [by rewrite I1|]. intros x. apply I5.
  - rewrite ECS_cleanDirtyEntities_closed. eexists. split; [done|].
    by apply clean_all_coherent.
  - unfold ECS_update.
    destruct (update_loop (now - ECS.lastUpdate (ecs w)) w
                (S (length (ECS.systems (ecs w)))) O w (same_static_refl w))
      as (w' & k & Hloop & _); [lia|].
    rewrite Hloop. eexists. split; [done|].
    assert (queue_coherent w') as H'.
    { eapply (for_of_break_inv queue_coherent); [|exact H|exact Hloop].
      intros x st b st'. apply update_body_coherent. }
    revert H'. by apply queue_coherent_transfer.
Qed.

(** X15: every call except the two that dispose a system ends and keeps the
    member lists and the membership caches in agreement, slot for slot. *)
Theorem agreement_kept_by_calls (c : ApiCall) (w : World) :
  disposes_system c = false ->
  agreement w ->
  exists w', exec c w = Some w'
    /\ agreement w'
    /\ forall s e, e ∈ System.entities (sys w' s) <-> s ∈ Entity.systems (ent w' e).
Proof.
  intros Hc H. destruct (agreement_preserved c w Hc H) as (w' & Hw' & H').
  exists w'. split; [done|]. split; [done|]. by apply agreement_iff.
Qed.

(** ** Batch updates and the clock *)

Lemma updates_app tr1 tr2 : updates (tr1 ++ tr2) = updates tr1 ++ updates tr2.
Proof.
  induction tr1 as [|ev tr1 IH]; simpl; [done|].
  destruct ev; simpl; by rewrite ?IH.
Qed.

Lemma reconcile_updates e s w : updates (trace (reconcile e s w)) = updates (trace w).
Proof.
  unfold reconcile, System_addEntity, System_removeEntity, Entity_removeSystem.
  repeat case_match; simpl; rewrite ?updates_app; simpl; by rewrite ?app_nil_r.
Qed.

Lemma fold_reconcile_updates e systems : forall w,
  updates (trace (fold_left (fun w system => reconcile e system w) systems w))
  = updates (trace w).
Proof.
  induction systems as [|s systems IH]; intros w; simpl; [done|].
  by rewrite IH, reconcile_updates.
Qed.

Lemma clean_all_updates systems queue : forall w,
  updates (trace (clean_all queue systems w)) = updates (trace w).
Proof.
  induction queue as [|e queue IH]; intros w; [done|].
  unfold clean_all in *. simpl. rewrite IH. unfold clean_entity. simpl.
  apply fold_reconcile_updates.
Qed.

Lemma updates_of_batch s elapsed members :
  updates (PreUpdate s :: map (fun e => Update s e elapsed) members ++ [PostUpdate s])
  = map (fun e => (s, e, elapsed)) members.
Proof. simpl. induction members as [|e members IH]; simpl; [done|]. by rewrite IH. Qed.

Lemma update_body_elapsed elapsed w x st b st' :
  (exists new, updates (trace st) = updates (trace w) ++ new
               /\ Forall (fun u => u.2 = elapsed) new) ->
  update_body elapsed x st = Some (b, st') ->
  exists new, updates (trace st') = updates (trace w) ++ new
              /\ Forall (fun u => u.2 = elapsed) new.
Proof.
  intros (new & Hn & Hall). unfold update_body.
  destruct (gate_miss x st); [intros [= <- <-]; by exists new|].
  set (w1o := if (0 <? _)%nat then _ else _).
  assert (exists w1, w1o = Some w1 /\ updates (trace w1) = updates (trace st))
    as (w1 & -> & Hu1).
  { subst w1o. destruct (0 <? _)%nat; [|by exists st].
    rewrite ECS_cleanDirtyEntities_closed. eexists. split; [done|].
    simpl. apply clean_all_updates. }
  destruct (System_updateAll_closed x elapsed w1) as (w2 & -> & _ & _ & _ & Ht).
  intros [= <- <-]. rewrite Ht, updates_app, updates_of_batch, Hu1, Hn.
  eexists. rewrite <- app_assoc. split; [done|].
  apply Forall_app. split; [done|]. apply Forall_forall.
  intros u (e & -> & _)%list_elem_of_fmap. done.
Qed.

(** X17: with hooks and predicates that return normally and leave the
    coordinator alone (no entity or system added or removed, no nested
    tick), and a counter in the range where numbers are exact, every tick
    ends, advances the counter by one and stores the clock value it was
    given; every [update] hook it calls receives the time elapsed since the
    clock value stored by the previous tick; the population and the systems
    list are left as they were. *)
Theorem ECS_update_clock (now : Z) (w : World) :
  exists w' new, ECS_update now w = Some w'
    /\ ECS.lastUpdate (ecs w') = now
    /\ ECS.updateCounter (ecs w') = ECS.updateCounter (ecs w) + 1
    /\ ECS.entities (ecs w') = ECS.entities (ecs w)
    /\ ECS.systems (ecs w') = ECS.systems (ecs w)
    /\ updates (trace w') = updates (trace w) ++ new
    /\ Forall (fun u => u.2 = now - ECS.lastUpdate (ecs w)) new.
Proof.
  unfold ECS_update.
  destruct (update_loop (now - ECS.lastUpdate (ecs w)) w
              (S (length (ECS.systems (ecs w)))) O w (same_static_refl w))
    as (w' & k & Hloop & (S1 & S2 & S3 & _) & _); [lia|].
  rewrite Hloop.
  assert (exists new, updates (trace w') = updates (trace w) ++ new
                      /\ Forall (fun u => u.2 = now - ECS.lastUpdate (ecs w)) new)
    as (new & Hn & Hall).
  { eapply (for_of_break_inv
              (fun st => exists new, updates (trace st) = updates (trace w) ++ new
                 /\ Forall (fun u => u.2 = now - ECS.lastUpdate (ecs w)) new));
      [|  |exact Hloop].
    - intros x st b st'. apply update_body_elapsed.
    - exists []. by rewrite app_nil_r. }
  eexists. exists new. split; [done|]. simpl. by rewrite S3.
Qed.

(** ** Components *)











(** X20: [addComponent] stores the component under its name, replacing what
    was there; [removeComponent] of that name then deletes it, which gives
    back the component map from before when the name was new.  An attached
    entity is dirty afterwards and the two calls together put it into the
    queue once if it was clean and not at all if it was dirty. *)
Theorem Entity_addComponent_then_removeComponent (e : EntRef) (name : string)
    (component : CompRef) (w : World) :
  let w1 := Entity_addComponent e name component w in
  let w2 := Entity_removeComponent e name w1 in
  Entity.components (ent w1 e) = <[name := component]> (Entity.components (ent w e))
  /\ Entity.components (ent w2 e) = delete name (Entity.components (ent w e))
  /\ (Entity.components (ent w e) !! name = None ->
        Entity.components (ent w2 e) = Entity.components (ent w e))
  /\ (Entity.ecs (ent w e) = true ->
        Entity.systemsDirty (ent w2 e) = true
        /\ ECS.entitiesSystemsDirty (ecs w2)
           = ECS.entitiesSystemsDirty (ecs w)
             ++ (if Entity.systemsDirty (ent w e) then [] else [e]))
  /\ (forall x, Entity.systems (ent w2 x) = Entity.systems (ent w x))
  /\ sys w2 = sys w /\ trace w2 = trace w.
Proof.
  intros w1 w2.
  set (u1 := upd_ent e (fun o => set_components
                                   (<[name := component]> (Entity.components o)) o) w).
  assert (Hw1 : w1 = Entity_setSystemsDirty e u1) by done.
  destruct (Entity_setSystemsDirty_frame e u1) as (A1 & _ & _ & _ & A5 & A6).
  assert (Hc1 : Entity.components (ent w1 e)
                = <[name := component]> (Entity.components (ent w e))).
  { rewrite Hw1. destruct (A6 e) as (_ & _ & -> & _). subst u1. simpl.
    by rewrite Nat.eqb_refl. }
  set (u2 := upd_ent e (fun o => set_components
                                   (delete name (Entity.components o)) o) w1).
  assert (Hw2 : w2 = Entity_setSystemsDirty e u2).
  { subst w2. unfold Entity_removeComponent. by rewrite Hc1, lookup_insert_eq. }
  destruct (Entity_setSystemsDirty_frame e u2) as (B1 & _ & _ & _ & B5 & B6).
  assert (Hc2 : Entity.components (ent w2 e)
                = delete name (Entity.components (ent w e))).
  { rewrite Hw2. destruct (B6 e) as (_ & _ & -> & _). subst u2. simpl.
    rewrite Nat.eqb_refl. simpl. by rewrite Hc1, delete_insert_eq. }
  split; [done|]. split; [done|]. split.
  { intros Habs. rewrite Hc2. by apply delete_id. }
  split.
  { intros Hatt. rewrite Hw2. unfold Entity_setSystemsDirty at 1 2.
    assert (Entity.systemsDirty (ent u2 e) = true
            /\ ECS.entitiesSystemsDirty (ecs u2)
               = ECS.entitiesSystemsDirty (ecs w)
                 ++ (if Entity.systemsDirty (ent w e) then [] else [e])) as (Hd & Hq).
    { subst u2. simpl. rewrite Nat.eqb_refl. simpl. rewrite Hw1.
      unfold Entity_setSystemsDirty. subst u1. simpl. rewrite Nat.eqb_refl. simpl.
      rewrite Hatt. destruct (Entity.systemsDirty (ent w e)) eqn:Hd0; simpl;
        rewrite ?Nat.eqb_refl; simpl; by rewrite ?Hd0, ?app_nil_r. }
    rewrite Hd. simpl. done. }
  split.
  { intros x. rewrite Hw2. destruct (B6 x) as (-> & _). subst u2. simpl.
    destruct (Nat.eqb_spec x e) as [->|]; simpl.
    - rewrite Hw1. destruct (A6 e) as (-> & _). subst u1. simpl. by rewrite Nat.eqb_refl.
    - rewrite Hw1. destruct (A6 x) as (-> & _). subst u1. simpl. by eqb_cases. }
  split.
  - rewrite Hw2, B1. subst u2. simpl. rewrite Hw1, A1. done.
  - rewrite Hw2, B5. subst u2. simpl. rewrite Hw1, A5. done.
Qed.

(** ** Hooks and membership *)

Lemma hooks_net_app s e tr1 tr2 :
  hooks_net s e (tr1 ++ tr2) = hooks_net s e tr1 + hooks_net s e tr2.
Proof.
  induction tr1 as [|ev tr1 IH]; simpl; [done|].
  destruct ev; simpl; rewrite ?IH; lia.
Qed.

Lemma hook_balance_transfer w w' :
  sys w' = sys w ->
  (forall s e, hooks_net s e (trace w') = hooks_net s e (trace w)) ->
  forall s e, hook_balance w' s e = hook_balance w s e.
Proof.
  intros Hs Ht s e. unfold hook_balance, in_system. by rewrite Hs, Ht.
Qed.

Lemma System_addEntity_balance s e w s' e' :
  hook_balance (System_addEntity s e w) s' e' = hook_balance w s' e'.
Proof.
  unfold hook_balance. rewrite System_addEntity_in_system.
  destruct (System_addEntity_effect s e w) as (_ & _ & _ & _ & _ & ->).
  rewrite hooks_net_app. unfold delta. simpl.
  rewrite (Nat.eqb_sym s s'), (Nat.eqb_sym e e').
  destruct (_ && _); lia.
Qed.

Lemma System_removeEntity_balance s e w s' e' :
  hook_balance (System_removeEntity s e w) s' e' = hook_balance w s' e'.
Proof.
  unfold hook_balance. rewrite System_removeEntity_in_system.
  unfold System_removeEntity.
  destruct (indexOf (System.entities (sys w s)) e) as [i|] eqn:E.
  - pose proof (indexOf_occ _ _ _ E) as Hpos. fold (in_system w s e) in Hpos.
    simpl. destruct (Entity_removeSystem_static e s w) as (_ & _ & _ & ->).
    rewrite hooks_net_app. unfold delta. simpl.
    rewrite (Nat.eqb_sym s s'), (Nat.eqb_sym e e').
    destruct (Nat.eqb_spec s' s) as [->|]; destruct (Nat.eqb_spec e' e) as [->|];
      simpl; lia.
  - apply indexOf_None in E. fold (in_system w s e) in E. unfold delta.
    destruct (Nat.eqb_spec s' s) as [->|]; destruct (Nat.eqb_spec e' e) as [->|];
      simpl; lia.
Qed.

Lemma reconcile_balance x y w s e :
  hook_balance (reconcile x y w) s e = hook_balance w s e.
Proof.
  unfold reconcile. destruct (_ && _); [apply System_addEntity_balance|].
  destruct (_ && _); [apply System_removeEntity_balance|done].
Qed.

Lemma clean_all_balance systems queue s e : forall w,
  hook_balance (clean_all queue systems w) s e = hook_balance w s e.
Proof.
  induction queue as [|x queue IH]; intros w; [done|].
  unfold clean_all in *. simpl. rewrite IH. unfold clean_entity.
  change (hook_balance (upd_ent x (set_systemsDirty false) ?w1) s e)
    with (hook_balance w1 s e).
  generalize w. clear. induction systems as [|y systems IH]; intros w; simpl; [done|].
  by rewrite IH, reconcile_balance.
Qed.

Lemma update_body_balance elapsed w x st b st' :
  (forall s e, hook_balance st s e = hook_balance w s e) ->
  update_body elapsed x st = Some (b, st') ->
  forall s e, hook_balance st' s e = hook_balance w s e.
Proof.
  intros H. unfold update_body. destruct (gate_miss x st); [by intros [= <- <-]|].
  set (w1o := if (0 <? _)%nat then _ else _).
  assert (exists w1, w1o = Some w1 /\ forall s e, hook_balance w1 s e = hook_balance w s e)
    as (w1 & -> & H1).
  { subst w1o. destruct (0 <? _)%nat; [|by exists st].
    rewrite ECS_cleanDirtyEntities_closed. eexists. split; [done|].
    intros s e. rewrite <- H.
    apply (clean_all_balance _ _ s e st). }
  destruct (System_updateAll_closed x elapsed w1) as (w2 & -> & _ & Hs & _ & Ht).
  intros [= <- <-] s e. rewrite <- H1. apply hook_balance_transfer; [done|].
  intros s0 e0. rewrite Ht, hooks_net_app. simpl.
  assert (forall l, hooks_net s0 e0 (map (fun e1 => Update x e1 elapsed) l ++ [PostUpdate x]) = 0)
    as ->; [|lia].
  induction l as [|y l IH]; simpl; done.
Qed.

(** X21: every change of a member list is announced by its hook: across any
    call except the two that dispose a system, the number of slots an
    entity holds in a member list changes by the number of [enter] calls
    minus the number of [exit] calls made for that pair. *)
Theorem hooks_account_for_membership (c : ApiCall) (w : World) :
  disposes_system c = false ->
  exists w', exec c w = Some w'
    /\ forall s e,
         Z.of_nat (in_system w' s e) - Z.of_nat (in_system w s e)
         = hooks_net s e (trace w') - hooks_net s e (trace w).
Proof.
  intros Hc.
  assert (exists w', exec c w = Some w'
            /\ forall s e, hook_balance w' s e = hook_balance w s e)
    as (w' & Hw' & Hb).
  { destruct c; simpl in *; try discriminate Hc.
    - eexists. split; [done|]. apply hook_balance_transfer;
        intros; by rewrite ?(proj1 (Entity_setSystemsDirty_frame _ _)),
                  ?(proj1 (proj2 (proj2 (proj2 (proj2 (Entity_setSystemsDirty_frame _ _)))))).
    - eexists. split; [done|]. unfold Entity_addComponent.
      apply hook_balance_transfer;
        intros; by rewrite ?(proj1 (Entity_setSystemsDirty_frame _ _)),
                  ?(proj1 (proj2 (proj2 (proj2 (proj2 (Entity_setSystemsDirty_frame _ _)))))).
    - eexists. split; [done|]. unfold Entity_removeComponent.
      destruct (_ !! _); [|done].
      apply hook_balance_transfer;
        intros; by rewrite ?(proj1 (Entity_setSystemsDirty_frame _ _)),
                  ?(proj1 (proj2 (proj2 (proj2 (proj2 (Entity_setSystemsDirty_frame _ _)))))).
    - eexists. split; [done|].
      destruct (Entity_updateComponent_frame e name data w) as (_ & Hs & Ht & _).
      apply hook_balance_transfer; [done|].
      intros. by rewrite Ht.
    - destruct (Entity_dispose_total e w) as (w' & Hw'). exists w'. split; [done|].
      revert Hw'.
      apply (Entity_dispose_inv (fun st => forall s0 e0, hook_balance st s0 e0 = hook_balance w s0 e0));
        [|done].
      intros s st H s0 e0. by rewrite System_removeEntity_balance.
    - eexists. split; [done|]. intros. apply System_addEntity_balance.
    - eexists. split; [done|]. intros. apply System_removeEntity_balance.
    - eexists. split; [done|]. unfold ECS_addEntity, Entity_addToECS.
      apply hook_balance_transfer;
        intros; by rewrite ?(proj1 (Entity_setSystemsDirty_frame _ _)),
                  ?(proj1 (proj2 (proj2 (proj2 (proj2 (Entity_setSystemsDirty_frame _ _)))))).
    - unfold ECS_removeEntity. destruct (indexOf _ _) as [i|]; simpl; [|by exists w].
      destruct (Entity_dispose_total e w) as (w' & Hw'). rewrite Hw'. simpl.
      eexists. split; [done|].
      assert (forall s0 e0, hook_balance w' s0 e0 = hook_balance w s0 e0) as H'.
      { revert Hw'.
        apply (Entity_dispose_inv (fun st => forall s0 e0, hook_balance st s0 e0 = hook_balance w s0 e0));
          [|done].
        intros s st H s0 e0. by rewrite System_removeEntity_balance. }
      intros s0 e0. rewrite <- H'. apply hook_balance_transfer; simpl;
        unfold ECS_removeEntityIfDirty; by destruct (indexOf _ _).
    - unfold ECS_removeEntityById. destruct (find_by_id _ _ _ _) as [[i e]|]; simpl;
        [|by exists w].
      destruct (Entity_dispose_total e w) as (w' & Hw'). rewrite Hw'. simpl.
      eexists. split; [done|].
      assert (forall s0 e0, hook_balance w' s0 e0 = hook_balance w s0 e0) as H'.
      { revert Hw'.
        apply (Entity_dispose_inv (fun st => forall s0 e0, hook_balance st s0 e0 = hook_balance w s0 e0));
          [|done].
        intros s st H s0 e0. by rewrite System_removeEntity_balance. }
      intros s0 e0. rewrite <- H'. apply hook_balance_transfer; simpl;
        unfold ECS_removeEntityIfDirty; by destruct (indexOf _ _).
    - rewrite ECS_addSystem_closed. eexists. split; [done|].
      generalize (ECS.entities (ecs w)) as l. intros l.
      assert (forall s0 e0,
                hook_balance (upd_ecs (fun c => set_systemList (ECS.systems c ++ [s]) c) w) s0 e0
                = hook_balance w s0 e0) as H0 by done.
      revert H0. generalize (upd_ecs (fun c => set_systemList (ECS.systems c ++ [s]) c) w).
      induction l as [|e l IH]; intros w1 H1; simpl; [done|].
      apply IH. intros s0 e0. destruct (System_test s e w1); [|done].
      by rewrite System_addEntity_balance.
    - rewrite ECS_cleanDirtyEntities_closed. eexists. split; [done|].
      intros s e. apply (clean_all_balance _ _ s e w).
    - unfold ECS_update.
      destruct (update_loop (now - ECS.lastUpdate (ecs w)) w
                  (S (length (ECS.systems (ecs w)))) O w (same_static_refl w))
        as (w' & k & Hloop & _); [lia|].
      rewrite Hloop. eexists. split; [done|].
      assert (forall s e, hook_balance w' s e = hook_balance w s e) as H'.
      { eapply (for_of_break_inv
                  (fun st => forall s e, hook_balance st s e = hook_balance w s e));
          [|  |exact Hloop]; [|done].
        intros x st b st'. apply update_body_balance. }
      intros s e. by rewrite <- H'. }
  exists w'. split; [done|]. intros s e. specialize (Hb s e).
  unfold hook_balance in Hb. lia.
Qed.

(** ** The further properties at concrete stores *)

Lemma ECS_getEntityById_first_match_witness :
  (forall e, e ∈ ECS.entities (ecs two_entities) ->
     Entity.id (ent two_entities e) <> 7)
  /\ ECS_getEntityById 7 two_entities = None.
Proof.
  assert (H : forall e, e ∈ ECS.entities (ecs two_entities) ->
                Entity.id (ent two_entities e) <> 7).
  { intros e He. change (e ∈ [ent_a; ent_b]) in He.
    apply elem_of_cons in He as [->|He]; [vm_compute; discriminate|].
    apply list_elem_of_singleton in He as ->. vm_compute. discriminate. }
  split; [exact H|].
  exact (proj2 (proj2 (ECS_getEntityById_first_match 7 two_entities)) H).
Defined.

Lemma ECS_addEntity_then_getEntityById_witness :
  (forall x, x ∈ ECS.entities (ecs (ECS_addEntity ent_a fresh_world)) ->
     Entity.id (ent (ECS_addEntity ent_a fresh_world) x)
     <> Entity.id (ent (ECS_addEntity ent_a fresh_world) ent_b))
  /\ ECS_getEntityById (Entity.id (ent (ECS_addEntity ent_a fresh_world) ent_b))
       (ECS_addEntity ent_b (ECS_addEntity ent_a fresh_world)) = Some ent_b.
Proof.
  assert (H : forall x, x ∈ ECS.entities (ecs (ECS_addEntity ent_a fresh_world)) ->
     Entity.id (ent (ECS_addEntity ent_a fresh_world) x)
     <> Entity.id (ent (ECS_addEntity ent_a fresh_world) ent_b)).
  { intros x Hx. change (x ∈ [ent_a]) in Hx.
    apply list_elem_of_singleton in Hx as ->. vm_compute. discriminate. }
  split; [exact H|].
  exact (proj1 (proj2 (ECS_addEntity_then_getEntityById ent_b
                         (ECS_addEntity ent_a fresh_world) H))).
Defined.

Lemma gate_entity_after_system : gate_miss sys_a entity_after_system = false.
Proof. reflexivity. Qed.

Lemma ECS_update_reconciles_queue_witness :
  ECS.systems (ecs entity_after_system) = [sys_a]
  /\ gate_miss sys_a entity_after_system = false
  /\ agreement entity_after_system
  /\ no_duplicates entity_after_system
  /\ exists w', ECS_update 16 entity_after_system = Some w'
       /\ ECS.entitiesSystemsDirty (ecs w') = [].
Proof.
  split; [reflexivity|]. split; [exact gate_entity_after_system|].
  split; [exact agreement_entity_after_system|].
  split; [exact no_duplicates_entity_after_system|].
  destruct (ECS_update_reconciles_queue 16 entity_after_system sys_a [] eq_refl
              gate_entity_after_system agreement_entity_after_system
              no_duplicates_entity_after_system) as (w' & Hu & Hq & _).
  exists w'. split; [exact Hu|exact Hq].
Defined.

Lemma agreement_system_only_world : agreement system_only_world.
Proof. intros s e. reflexivity. Qed.

Lemma no_duplicates_system_only_world : no_duplicates system_only_world.
Proof. intros s e. unfold in_system. simpl. lia. Qed.

Lemma ECS_addEntity_then_update_witness :
  Entity.systemsDirty (ent system_only_world ent_a) = false
  /\ ECS.systems (ecs system_only_world) = [sys_a]
  /\ gate_miss sys_a system_only_world = false
  /\ agreement system_only_world
  /\ no_duplicates system_only_world
  /\ exists w', ECS_update 16 (ECS_addEntity ent_a system_only_world) = Some w'
       /\ in_system w' sys_a ent_a = 1%nat.
Proof.
  split; [reflexivity|]. split; [reflexivity|]. split; [reflexivity|].
  split; [exact agreement_system_only_world|].
  split; [exact no_duplicates_system_only_world|].
  destruct (ECS_addEntity_then_update 16 system_only_world ent_a sys_a [] eq_refl
              eq_refl eq_refl agreement_system_only_world
              no_duplicates_system_only_world) as (w' & Hu & _ & _ & Hm).
  exists w'. split; [exact Hu|].
  exact (proj1 (Hm sys_a (list_elem_of_here _ _))).
Defined.

Lemma positioned_world_reached :
  ECS_update 16 (Entity_addComponent ent_a "position" position_a entity_after_system)
  = Some positioned_world.
Proof. unfold positioned_world. returns_default. Qed.

Lemma positioned_world_wf : agreement positioned_world /\ no_duplicates positioned_world.
Proof.
  destruct (update_reconciles 16
              (Entity_addComponent ent_a "position" position_a entity_after_system) sys_a [])
    as (w2 & Hu2 & _ & _ & _ & _ & Hag & Hnd).
  - reflexivity.
  - reflexivity.
  - intros s e. unfold in_system, in_cache. simpl. by destruct (e =? ent_a)%nat.
  - intros s e. unfold in_system. simpl. lia.
  - rewrite positioned_world_reached in Hu2. by injection Hu2 as <-.
Qed.

Lemma Entity_addComponent_then_update_witness :
  Entity.ecs (ent positioned_world ent_a) = true
  /\ Entity.systemsDirty (ent positioned_world ent_a) = false
  /\ ECS.systems (ecs positioned_world) = [sys_a]
  /\ gate_miss sys_a positioned_world = false
  /\ agreement positioned_world
  /\ no_duplicates positioned_world
  /\ exists w', ECS_update 32 (Entity_addComponent ent_a "velocity" velocity_a positioned_world)
                = Some w'
       /\ Entity.systemsDirty (ent w' ent_a) = false.
Proof.
  split; [observe|]. split; [observe|]. split; [observe|]. split; [observe|].
  split; [exact (proj1 positioned_world_wf)|].
  split; [exact (proj2 positioned_world_wf)|].
  assert (H1 : Entity.ecs (ent positioned_world ent_a) = true) by observe.
  assert (H2 : Entity.systemsDirty (ent positioned_world ent_a) = false) by observe.
  assert (H3 : ECS.systems (ecs positioned_world) = [sys_a]) by observe.
  assert (H4 : gate_miss sys_a positioned_world = false) by observe.
  destruct (Entity_addComponent_then_update 32 positioned_world ent_a "velocity" velocity_a
              sys_a [] H1 H2 H3 H4 (proj1 positioned_world_wf)
              (proj2 positioned_world_wf)) as (w' & Hu & _ & Hf & _).
  exists w'. split; [exact Hu|exact Hf].
Defined.

Lemma Entity_removeComponent_then_update_witness :
  is_Some (Entity.components (ent positioned_world ent_a) !! "position")
  /\ Entity.ecs (ent positioned_world ent_a) = true
  /\ Entity.systemsDirty (ent positioned_world ent_a) = false
  /\ ECS.systems (ecs positioned_world) = [sys_a]
  /\ gate_miss sys_a positioned_world = false
  /\ agreement positioned_world
  /\ no_duplicates positioned_world
  /\ exists w', ECS_update 32 (Entity_removeComponent ent_a "position" positioned_world)
                = Some w'
       /\ Entity.systemsDirty (ent w' ent_a) = false.
Proof.
  assert (H0 : is_Some (Entity.components (ent positioned_world ent_a) !! "position")).
  { exists position_a. observe. }
  assert (H1 : Entity.ecs (ent positioned_world ent_a) = true) by observe.
  assert (H2 : Entity.systemsDirty (ent positioned_world ent_a) = false) by observe.
  assert (H3 : ECS.systems (ecs positioned_world) = [sys_a]) by observe.
  assert (H4 : gate_miss sys_a positioned_world = false) by observe.
  split; [exact H0|]. split; [exact H1|]. split; [exact H2|]. split; [exact H3|].
  split; [exact H4|].
  split; [exact (proj1 positioned_world_wf)|].
  split; [exact (proj2 positioned_world_wf)|].
  destruct (Entity_removeComponent_then_update 32 positioned_world ent_a "position"
              sys_a [] H0 H1 H2 H3 H4 (proj1 positioned_world_wf)
              (proj2 positioned_world_wf)) as (w' & Hu & _ & Hf & _).
  exists w'. split; [exact Hu|exact Hf].
Defined.

Lemma System_dispose_exits_members_witness :
  agreement two_systems_world
  /\ exists w', System_dispose sys_a two_systems_world = Some w'
       /\ (sys_a ∉ Entity.systems (ent w' ent_a)).
Proof.
  split; [exact agreement_two_systems_world|].
  destruct (System_dispose_exits_members sys_a two_systems_world)
    as (w' & Hd & _ & _ & Hc & _).
  exists w'. split; [exact Hd|]. exact (Hc agreement_two_systems_world ent_a).
Defined.

Lemma ECS_removeSystem_effect_witness :
  indexOf (ECS.systems (ecs two_systems_world)) sys_a = Some O
  /\ exists w', ECS_removeSystem sys_a two_systems_world = Some w'
       /\ ECS.systems (ecs w') = delete O (ECS.systems (ecs two_systems_world)).
Proof.
  assert (H : indexOf (ECS.systems (ecs two_systems_world)) sys_a = Some O) by observe.
  split; [exact H|].
  destruct (proj2 (ECS_removeSystem_effect sys_a two_systems_world) O H)
    as (w' & Hr & Hs & _).
  exists w'. split; [exact Hr|exact Hs].
Defined.

Lemma ECS_removeSystem_then_update_witness :
  occ sys_a (ECS.systems (ecs two_systems_world)) = 1%nat
  /\ exists w1 w2 ran,
       ECS_removeSystem sys_a two_systems_world = Some w1
       /\ ECS_update 16 w1 = Some w2
       /\ batches (trace w2) = batches (trace w1) ++ ran
       /\ (sys_a ∉ ran).
Proof.
  assert (H : occ sys_a (ECS.systems (ecs two_systems_world)) = 1%nat) by observe.
  split; [exact H|].
  exact (ECS_removeSystem_then_update 16 sys_a two_systems_world H).
Defined.

Lemma two_systems_world_cache :
  Entity.systems (ent two_systems_world ent_a) = [sys_a; sys_b].
Proof. observe. Qed.

Lemma Entity_dispose_every_other_system_witness :
  NoDup (Entity.systems (ent two_systems_world ent_a))
  /\ (forall s, s ∈ Entity.systems (ent two_systems_world ent_a) ->
        ent_a ∈ System.entities (sys two_systems_world s))
  /\ exists w', Entity_dispose ent_a two_systems_world = Some w'
       /\ Entity.systems (ent w' ent_a)
          = dispose_skips (Entity.systems (ent two_systems_world ent_a)).
Proof.
  assert (H1 : NoDup (Entity.systems (ent two_systems_world ent_a))).
  { rewrite two_systems_world_cache. apply NoDup_cons. split.
    - intros H%list_elem_of_singleton. discriminate H.
    - apply NoDup_singleton. }
  assert (H2 : forall s, s ∈ Entity.systems (ent two_systems_world ent_a) ->
                 ent_a ∈ System.entities (sys two_systems_world s)).
  { intros s. rewrite two_systems_world_cache. intros Hs.
    apply agreement_iff; [exact agreement_two_systems_world|].
    by rewrite two_systems_world_cache. }
  split; [exact H1|]. split; [exact H2|].
  destruct (Entity_dispose_every_other_system ent_a two_systems_world H1 H2)
    as (w' & Hd & Hc & _).
  exists w'. split; [exact Hd|exact Hc].
Defined.

Lemma ECS_removeEntity_outside_queue_witness :
  indexOf (ECS.entities (ecs positioned_world)) ent_a = Some O
  /\ indexOf (ECS.entitiesSystemsDirty (ecs positioned_world)) ent_a = None
  /\ exists w1 w', Entity_dispose ent_a positioned_world = Some w1
       /\ ECS_removeEntity ent_a positioned_world = Some (Some ent_a, w')
       /\ ECS.entities (ecs w') = delete O (ECS.entities (ecs positioned_world)).
Proof.
  assert (H1 : indexOf (ECS.entities (ecs positioned_world)) ent_a = Some O) by observe.
  assert (H2 : indexOf (ECS.entitiesSystemsDirty (ecs positioned_world)) ent_a = None)
    by observe.
  split; [exact H1|]. split; [exact H2|].
  destruct (proj1 (ECS_removeEntity_outside_queue ent_a positioned_world) O H1 H2)
    as (w1 & w' & Hd & Hr & He & _).
  exists w1, w'. split; [exact Hd|]. split; [exact Hr|exact He].
Defined.

Lemma queue_coherent_fresh_world : queue_coherent fresh_world.
Proof.
  split; [apply NoDup_nil_2|]. intros e. simpl. split; [discriminate|].
  by intros ?%elem_of_nil.
Qed.

Lemma queue_coherent_preserved_witness :
  queue_coherent fresh_world
  /\ exists w', exec (Api_ECS_addEntity ent_a) fresh_world = Some w'
       /\ queue_coherent w'.
Proof.
  split; [exact queue_coherent_fresh_world|].
  exact (queue_coherent_preserved (Api_ECS_addEntity ent_a) fresh_world
           queue_coherent_fresh_world).
Defined.

Lemma agreement_kept_by_calls_witness :
  disposes_system (Api_Entity_dispose ent_a) = false
  /\ agreement two_systems_world
  /\ exists w', exec (Api_Entity_dispose ent_a) two_systems_world = Some w'
       /\ agreement w'.
Proof.
  split; [reflexivity|]. split; [exact agreement_two_systems_world|].
  destruct (agreement_kept_by_calls (Api_Entity_dispose ent_a) two_systems_world
              eq_refl agreement_two_systems_world) as (w' & Hw' & Hag & _).
  exists w'. split; [exact Hw'|exact Hag].
Defined.



Lemma Entity_addComponent_then_removeComponent_witness :
  Entity.components (ent fresh_world ent_a) !! "position" = None
  /\ Entity.components
       (ent (Entity_removeComponent ent_a "position"
               (Entity_addComponent ent_a "position" position_a fresh_world)) ent_a)
     = Entity.components (ent fresh_world ent_a).
Proof.
  split; [reflexivity|].
  exact (proj1 (proj2 (proj2 (Entity_addComponent_then_removeComponent ent_a
                                "position" position_a fresh_world))) eq_refl).
Defined.

Lemma hooks_account_for_membership_witness :
  disposes_system (Api_ECS_addSystem sys_b) = false
  /\ exists w', exec (Api_ECS_addSystem sys_b) (ECS_addEntity ent_a fresh_world) = Some w'
       /\ Z.of_nat (in_system w' sys_b ent_a)
            - Z.of_nat (in_system (ECS_addEntity ent_a fresh_world) sys_b ent_a)
          = hooks_net sys_b ent_a (trace w')
            - hooks_net sys_b ent_a (trace (ECS_addEntity ent_a fresh_world)).
Proof.
  split; [reflexivity|].
  destruct (hooks_account_for_membership (Api_ECS_addSystem sys_b)
              (ECS_addEntity ent_a fresh_world) eq_refl) as (w' & Hw' & Hb).
  exists w'. split; [exact Hw'|exact (Hb sys_b ent_a)].
Defined.
